(** * rabbitmq-c, tools/consume.c: the amqp-consume tool

    A shallow embedding of [stringify_bytes], [setup_queue], [do_consume]
    and [main], and the properties of the consumer that follow from them.

    Conventions.
    - C integers are [Z]; conversions to a narrower type are written out
      ([to_char], [to_uint16], [size_t_wrap], [int_wrap]).
    - A [char *] that may be [NULL] is an [option string]; an
      [amqp_bytes_t] is the list of its bytes, [len] being its length.
    - librabbitmq, popt and the helpers of common.c / process.c are
      collaborators: every call to one is recorded as an [event], and what
      the call answers is read from an explicit description of the
      environment ([broker], [arrival]). *)

From Stdlib Require Import ZArith List String Ascii Bool Lia.
From stdpp Require Import base list.
Import ListNotations.
Local Open Scope Z_scope.

(** ** Machine integers *)

Definition uint8_t (b : Z) : Prop := 0 <= b < 256.

(** A value stored into a [char] cell keeps its low eight bits. *)
Definition to_char (v : Z) : Z := v mod 256.

(** [size_t] arithmetic is modulo 2^64 (LP64). *)
Definition SIZE_MAX : Z := 2 ^ 64 - 1.
Definition size_t_wrap (n : Z) : Z := n mod 2 ^ 64.

(** ** Byte strings and the heap buffer *)

Definition amqp_bytes_t := list Z.

Definition bytes_len (b : amqp_bytes_t) : Z := Z.of_nat (length b).

(** A heap cell is [None] while it is indeterminate (fresh from [malloc]). *)
Definition cell := option Z.

Definition malloc (n : Z) : list cell := replicate (Z.to_nat n) None.

(** The pair ([res], [p]) of [stringify_bytes]: the buffer and the write
    cursor, as an offset into it. *)
Record writer := Writer { res : list cell; p : nat }.

(** [*p = c]: a store outside the allocation is a fault. *)
Definition poke (c : Z) (w : writer) : option writer :=
  if decide (p w < length (res w))%nat
  then Some (Writer (<[p w := Some (to_char c)]> (res w)) (p w))
  else None.

(** [*p++ = c] *)
Definition put (c : Z) (w : writer) : option writer :=
  w' ← poke c w; Some (Writer (res w') (S (p w'))).

(** ** stringify_bytes *)

(** The test [data[i] >= 32 && data[i] != 127]. *)
Definition literal (d : Z) : bool := (32 <=? d) && negb (d =? 127).

(** The body of the [for] loop, for the byte [d]. *)
Definition stringify_step (d : Z) (w : writer) : option writer :=
  if literal d then put d w
  else
    w1 ← put 92 w;
    w2 ← put (48 + Z.shiftr d 6) w1;
    w3 ← put (48 + Z.land (Z.shiftr d 3) 7) w2;
    put (48 + Z.land d 7) w3.

Fixpoint stringify_loop (data : list Z) (w : writer) : option writer :=
  match data with
  | [] => Some w
  | d :: data' => w' ← stringify_step d w; stringify_loop data' w'
  end.

(** The state in which [stringify_bytes] returns: [res] is the result,
    [p] points at the terminating 0. *)
Definition stringify_run (bytes : amqp_bytes_t) : option writer :=
  let res := malloc (size_t_wrap (bytes_len bytes * 4 + 1)) in
  w ← stringify_loop bytes (Writer res 0);
  poke 0 w.

Definition stringify_bytes (bytes : amqp_bytes_t) : option (list cell) :=
  res <$> stringify_run bytes.

(** Reading a C string: the characters before the first 0.  Reading an
    indeterminate cell, or past the allocation, fails. *)
Fixpoint c_str (m : list cell) : option (list Z) :=
  match m with
  | [] => None
  | None :: _ => None
  | Some c :: m' => if c =? 0 then Some [] else cons c <$> c_str m'
  end.

(** ** The escaped form, as a function of the input *)

Definition escape_byte (d : Z) : list Z :=
  if literal d then [d]
  else [92; 48 + Z.shiftr d 6; 48 + Z.land (Z.shiftr d 3) 7; 48 + Z.land d 7].

Definition escaped (data : list Z) : list Z := flat_map escape_byte data.

(** Decoding of octal escapes, the reader's side of the rendering (the
    tool has no decoder of its own): a backslash followed by three octal
    digits that denote a byte stands for that byte; every other character
    stands for itself. *)
Definition octal_digit (c : Z) : bool := (48 <=? c) && (c <=? 55).

Definition octal_value (d1 d2 d3 : Z) : Z :=
  64 * (d1 - 48) + 8 * (d2 - 48) + (d3 - 48).

Fixpoint octal_decode (s : list Z) : list Z :=
  match s with
  | [] => []
  | c :: tl =>
      match tl with
      | d1 :: d2 :: d3 :: rest =>
          if (c =? 92) && octal_digit d1 && octal_digit d2 && octal_digit d3
             && (octal_value d1 d2 d3 <? 256)
          then octal_value d1 d2 d3 :: octal_decode rest
          else c :: octal_decode tl
      | _ => c :: octal_decode tl
      end
  end.

(** ** Strings *)

Definition bytes_of_string (s : string) : amqp_bytes_t :=
  map (fun a => Z.of_N (N_of_ascii a)) (list_ascii_of_string s).

Definition string_of_chars (cs : list Z) : string :=
  string_of_list_ascii (map (fun c => ascii_of_N (Z.to_N c)) cs).

Definition amqp_empty_bytes : amqp_bytes_t := [].

Definition amqp_cstring_bytes (s : string) : amqp_bytes_t := bytes_of_string s.

(** Modelled from the spec: [cstring_bytes] of common.c is not among the
    sources; an absent name stands for the empty byte string
    ("name|empty", "empty routing key is valid"). *)
Definition cstring_bytes (s : option string) : amqp_bytes_t :=
  match s with
  | Some str => amqp_cstring_bytes str
  | None => amqp_empty_bytes
  end.

Definition is_null {A} (ptr : option A) : bool :=
  match ptr with None => true | Some _ => false end.

(** ** int and uint16_t *)

Definition INT_MAX : Z := 2 ^ 31 - 1.
Definition INT_MIN : Z := - 2 ^ 31.
Definition int_range (v : Z) : Prop := INT_MIN <= v <= INT_MAX.

(** [i++] on an [int], as two's complement hardware does it. *)
Definition int_wrap (v : Z) : Z := (v + 2 ^ 31) mod 2 ^ 32 - 2 ^ 31.

(** The prefetch count parameter of [amqp_basic_qos] is a [uint16_t]. *)
Definition to_uint16 (v : Z) : Z := v mod 65536.

(** ** Frames *)

Record amqp_basic_deliver_t := BasicDeliver {
  consumer_tag : amqp_bytes_t;
  delivery_tag : Z;
  redelivered : Z;
  deliver_exchange : amqp_bytes_t;
  deliver_routing_key : amqp_bytes_t
}.

(** What [payload.method.decoded] points to. *)
Inductive decoded_method :=
| decoded_basic_deliver (d : amqp_basic_deliver_t)
| decoded_other.

(** [amqp_frame_t]: a union tagged by [frame_type]. *)
Inductive amqp_frame_t :=
| frame_method (channel : Z) (id : Z) (decoded : decoded_method)
| frame_header (channel : Z) (class_id : Z) (body_size : Z)
| frame_body (channel : Z) (fragment : amqp_bytes_t)
| frame_heartbeat (channel : Z).

(** The constants of amqp_framing.h are not among the sources.  They
    are given their AMQP 0-9-1 values; no result below depends on the
    numbers. *)

(** Modelled from the spec: the frame type of "a method frame". *)
Definition AMQP_FRAME_METHOD : Z := 1.

(** Modelled from the spec: the frame type of a content-header frame. *)
Definition AMQP_FRAME_HEADER : Z := 2.

(** Modelled from the spec: the frame type of a content-body frame. *)
Definition AMQP_FRAME_BODY : Z := 3.

(** Modelled from the spec: the frame type of a heartbeat. *)
Definition AMQP_FRAME_HEARTBEAT : Z := 8.

(** Modelled from the spec: the method id of "a delivery notification",
    basic.deliver (class 60, method 60). *)
Definition AMQP_BASIC_DELIVER_METHOD : Z := 0x003C003C.

Definition frame_type (f : amqp_frame_t) : Z :=
  match f with
  | frame_method _ _ _ => AMQP_FRAME_METHOD
  | frame_header _ _ _ => AMQP_FRAME_HEADER
  | frame_body _ _ => AMQP_FRAME_BODY
  | frame_heartbeat _ => AMQP_FRAME_HEARTBEAT
  end.

(** [frame.payload.method.id]; only read when the frame is a method frame. *)
Definition method_id (f : amqp_frame_t) : Z :=
  match f with
  | frame_method _ id _ => id
  | _ => 0
  end.

(** [(amqp_basic_deliver_t * )frame.payload.method.decoded] *)
Definition method_decoded (f : amqp_frame_t) : option amqp_basic_deliver_t :=
  match f with
  | frame_method _ _ (decoded_basic_deliver d) => Some d
  | _ => None
  end.

(** ** Calls to the collaborators *)

Inductive event :=
| ev_stderr (msg : string)
| ev_usage
| ev_make_connection
| ev_close_connection
| ev_queue_declare (channel : Z) (queue : amqp_bytes_t)
    (passive durable exclusive auto_delete : Z)
| ev_queue_bind (channel : Z) (queue exchange routing_key : amqp_bytes_t)
| ev_basic_qos (channel prefetch_size prefetch_count global : Z)
| ev_basic_consume (channel : Z) (queue consumer_tag : amqp_bytes_t)
    (no_local no_ack exclusive : Z)
| ev_simple_wait_frame
| ev_pipeline (argv : list string)
| ev_copy_body (body : list Z)
| ev_finish_pipeline
| ev_basic_ack (channel delivery_tag multiple : Z)
| ev_maybe_release_buffers
| ev_die (context : string).

(** ** The environment *)

(** What happens around one return of [amqp_simple_wait_frame]: the frame
    it yields and, should the frame be dispatched, the fate of the
    pipeline and of the acknowledgment. *)
Record arrival := Arrival {
  wait_res : Z;
  frame : amqp_frame_t;
  spawn_ok : bool;
  body : list Z;
  copy_ok : bool;
  stage_status : list Z;
  ack_res : Z
}.

(** The answers of the broker to the requests of one run, and the frames
    it sends afterwards.  [declare_reply] is [None] for a [NULL] result
    and otherwise the [queue] field of the declare-ok. *)
Record broker := Broker {
  connect_ok : bool;
  declare_reply : option amqp_bytes_t;
  bind_ok : bool;
  qos_ok : bool;
  consume_ok : bool;
  close_ok : bool;
  arrivals : list arrival
}.

(** ** Runs *)

(** How a run stops short of returning: [exit(status)], a wait for a frame
    that never comes, or a memory fault. *)
Inductive halt :=
| Exit (status : Z)
| Block
| Crash.

Record M (A : Type) := Run { trace : list event; result : A + halt }.
Arguments Run {A} _ _.
Arguments trace {A} _.
Arguments result {A} _.

#[global] Instance M_ret : MRet M := fun A a => Run [] (inl a).

#[global] Instance M_bind : MBind M := fun A B k m =>
  match result m with
  | inl a => Run (trace m ++ trace (k a)) (result (k a))
  | inr h => Run (trace m) (inr h)
  end.

Definition call (e : event) : M unit := Run [e] (inl tt).

Definition halted {A} (h : halt) : M A := Run [] (inr h).

(** [exit(status)] *)
Definition exit {A} (status : Z) : M A := halted (Exit status).

(** Modelled from the spec: [die_rpc] of common.c is not among the sources;
    an unsuccessful reply is reported with the name of the operation and
    the process terminates with a non-zero status. *)
Definition die_rpc {A} (context : string) : M A :=
  call (ev_die context) ;; exit 1.

(** Modelled from the spec: [die_amqp_error] of common.c is not among the
    sources; a protocol-level error (a negative status, as librabbitmq
    reports them) is reported with its context and is fatal. *)
Definition die_amqp_error (err : Z) (context : string) : M unit :=
  if err <? 0 then call (ev_die context) ;; exit 1 else mret tt.

(** Modelled from the spec: [make_connection] of common.c is not among
    the sources; it connects to the broker and yields an established,
    authenticated session over one channel, or is fatal. *)
Definition make_connection (b : broker) : M unit :=
  call ev_make_connection ;;
  if connect_ok b then mret tt else die_rpc "opening connection".

(** Modelled from the spec: [close_connection] of common.c is not among
    the sources; it closes the session, an unsuccessful reply being fatal
    as at every other step. *)
Definition close_connection (b : broker) : M unit :=
  call ev_close_connection ;;
  if close_ok b then mret tt else die_rpc "closing connection".

(** Modelled from the spec: [pipeline] of process.c is not among the
    sources; it launches the command, and a failure to spawn is fatal. *)
Definition pipeline (argv : list string) (a : arrival) : M unit :=
  call (ev_pipeline argv) ;;
  if spawn_ok a then mret tt else die_rpc "pipeline".

(** Modelled from the spec: [copy_body] of common.c is not among the
    sources; it writes the whole body, in arrival order, to the input of
    the pipeline and closes it, and any I/O error on the way is fatal. *)
Definition copy_body (a : arrival) : M unit :=
  if copy_ok a then call (ev_copy_body (body a)) else die_rpc "copy_body".

(** Modelled from the spec: the pipeline succeeds iff every stage exited
    with status zero. *)
Definition pipeline_success (a : arrival) : bool :=
  forallb (Z.eqb 0) (stage_status a).

(** Modelled from the spec: [finish_pipeline] of process.c is not among
    the sources; it waits for all stages of the pipeline to exit and
    returns whether it succeeded. *)
Definition finish_pipeline (a : arrival) : M Z :=
  call ev_finish_pipeline ;;
  mret (if pipeline_success a then 1 else 0).

(** ** setup_queue *)

Definition routing_key_requires_exchange : string :=
  "--routing-key option requires an exchange name to be provided with --exchange
".

Definition setup_queue (b : broker) (queue exchange routing_key : option string)
    (declare : Z) : M amqp_bytes_t :=
  let queue_bytes := cstring_bytes queue in
  (if is_null exchange && negb (is_null routing_key)
   then call (ev_stderr routing_key_requires_exchange) ;; exit 1
   else mret tt) ;;
  if is_null queue || negb (is_null exchange) || negb (declare =? 0) then
    call (ev_queue_declare 1 queue_bytes 0 0 1 1) ;;
    match declare_reply b with
    | None => die_rpc "queue.declare"
    | Some res_queue =>
        queue_bytes ←
          (if is_null queue then
             match stringify_bytes res_queue ≫= c_str with
             | Some sq =>
                 call (ev_stderr ("Server provided queue name: "
                                    ++ string_of_chars sq ++ "
")%string) ;;
                 mret res_queue
             | None => halted Crash
             end
           else mret queue_bytes);
        match exchange with
        | Some e =>
            call (ev_queue_bind 1 queue_bytes (amqp_cstring_bytes e)
                    (cstring_bytes routing_key)) ;;
            (if bind_ok b then mret tt else die_rpc "queue.bind") ;;
            mret queue_bytes
        | None => mret queue_bytes
        end
    end
  else mret queue_bytes.

(** ** do_consume *)

(** One pass through the body of the [for] loop; an early return is the
    [continue]. *)
Definition iteration (no_ack : Z) (argv : list string) (a : arrival) : M unit :=
  call ev_simple_wait_frame ;;
  die_amqp_error (wait_res a) "waiting for header frame" ;;
  if negb (frame_type (frame a) =? AMQP_FRAME_METHOD)
     || negb (method_id (frame a) =? AMQP_BASIC_DELIVER_METHOD)
  then mret tt
  else
    match method_decoded (frame a) with
    | None => halted Crash
    | Some deliver =>
        let delivery_tag := delivery_tag deliver in
        pipeline argv a ;;
        copy_body a ;;
        success ← finish_pipeline a;
        (if negb (success =? 0) && (no_ack =? 0)
         then call (ev_basic_ack 1 delivery_tag 0) ;;
              die_amqp_error (ack_res a) "basic.ack"
         else mret tt) ;;
        call ev_maybe_release_buffers
    end.

(** The [for] loop from the value [i] of its counter on, against the
    frames still to come.  When they are used up the wait never returns. *)
Fixpoint consume_loop (no_ack count : Z) (argv : list string) (i : Z)
    (ins : list arrival) : M unit :=
  if (count <? 0) || (i <? count) then
    match ins with
    | [] => call ev_simple_wait_frame ;; halted Block
    | a :: ins' =>
        iteration no_ack argv a ;;
        consume_loop no_ack count argv (int_wrap (i + 1)) ins'
    end
  else mret tt.

Definition do_consume (b : broker) (queue : amqp_bytes_t) (no_ack count : Z)
    (argv : list string) : M unit :=
  (if (0 <? count) && (count <=? 65535)
   then call (ev_basic_qos 1 0 (to_uint16 count) 0) ;;
        if qos_ok b then mret tt else die_rpc "basic.qos"
   else mret tt) ;;
  call (ev_basic_consume 1 queue amqp_empty_bytes 0 no_ack 0) ;;
  (if consume_ok b then mret tt else die_rpc "basic.consume") ;;
  consume_loop no_ack count argv 0 (arrivals b).

(** ** main *)

(** The option variables of [main] as [process_options] leaves them, and
    the remaining arguments ([poptGetArgs]). *)
Record options := Options {
  opt_queue : option string;
  opt_exchange : option string;
  opt_routing_key : option string;
  opt_declare : Z;
  opt_no_ack : Z;
  opt_count : Z;
  opt_args : option (list string)
}.

(** The value of a run of [main] is the status it returns. *)
Definition main (o : options) (b : broker) : M Z :=
  match opt_args o with
  | None | Some [] =>
      call (ev_stderr "consuming command not specified
") ;;
      call ev_usage ;;
      mret 1
  | Some cmd_argv =>
      make_connection b ;;
      queue_bytes ← setup_queue b (opt_queue o) (opt_exchange o)
                      (opt_routing_key o) (opt_declare o);
      do_consume b queue_bytes (opt_no_ack o) (opt_count o) cmd_argv ;;
      close_connection b ;;
      mret 0
  end.

(** The exit status of the process, when it terminates. *)
Definition exit_status (m : M Z) : option Z :=
  match result m with
  | inl status => Some status
  | inr (Exit status) => Some status
  | inr _ => None
  end.

(** ** Notions used in the statements *)

(** The string that [fprintf] prints for the result of [stringify_bytes]. *)
Definition stringify_string (bytes : amqp_bytes_t) : option (list Z) :=
  stringify_bytes bytes ≫= c_str.

(** A buffer holding [out] followed by [k] indeterminate cells, with the
    cursor behind [out]. *)
Definition filled (out : list Z) (k : nat) : writer :=
  Writer ((Some <$> out) ++ replicate k None) (length out).

Definition is_wait (e : event) : bool :=
  match e with ev_simple_wait_frame => true | _ => false end.

Definition is_pipeline (e : event) : bool :=
  match e with ev_pipeline _ => true | _ => false end.

Definition is_ack (e : event) : bool :=
  match e with ev_basic_ack _ _ _ => true | _ => false end.

Definition is_qos (e : event) : bool :=
  match e with ev_basic_qos _ _ _ _ => true | _ => false end.

Definition is_declare (e : event) : bool :=
  match e with ev_queue_declare _ _ _ _ _ _ => true | _ => false end.

(** The calls that only the dispatch loop and its QoS set-up make. *)
Definition is_dispatch (e : event) : bool :=
  match e with
  | ev_basic_qos _ _ _ _ | ev_simple_wait_frame | ev_pipeline _
  | ev_copy_body _ | ev_finish_pipeline | ev_basic_ack _ _ _
  | ev_maybe_release_buffers => true
  | _ => false
  end.

(** The calls that talk to the broker. *)
Definition contacts_broker (e : event) : bool :=
  match e with
  | ev_make_connection | ev_close_connection
  | ev_queue_declare _ _ _ _ _ _ | ev_queue_bind _ _ _ _
  | ev_basic_qos _ _ _ _ | ev_basic_consume _ _ _ _ _ _
  | ev_simple_wait_frame | ev_copy_body _ | ev_basic_ack _ _ _ => true
  | _ => false
  end.

Definition count_ev (f : event -> bool) (t : list event) : nat :=
  length (List.filter f t).

(** The frame is one the loop dispatches. *)
Definition is_delivery (f : amqp_frame_t) : bool :=
  (frame_type f =? AMQP_FRAME_METHOD)
  && (method_id f =? AMQP_BASIC_DELIVER_METHOD).

(** An arrival that no step of the loop body finds fatal. *)
Definition harmless (a : arrival) : bool :=
  (0 <=? wait_res a)
  && (negb (is_delivery (frame a))
      || (negb (is_null (method_decoded (frame a)))
          && spawn_ok a && copy_ok a && (0 <=? ack_res a))).

(** The loop never comes to an end by itself: however many harmless
    frames arrive, each is waited for and the loop waits for one more. *)
Definition runs_unbounded (no_ack count : Z) : Prop :=
  forall b queue argv,
    qos_ok b = true -> consume_ok b = true ->
    Forall (fun a => harmless a = true) (arrivals b) ->
    let run := do_consume b queue no_ack count argv in
    result run = inr Block /\
    count_ev is_wait (trace run) = S (length (arrivals b)).

(** ** Sample environments *)

Definition deliver_frame (tag : Z) : amqp_frame_t :=
  frame_method 1 AMQP_BASIC_DELIVER_METHOD
    (decoded_basic_deliver (BasicDeliver [] tag 0 [] [])).

(** A delivery with body "hi" whose pipeline exits with [status]. *)
Definition delivery (tag status : Z) : arrival :=
  Arrival 0 (deliver_frame tag) true [104; 105] true [status] 0.

Definition heartbeat : arrival :=
  Arrival 0 (frame_heartbeat 0) true [] true [] 0.

(** A broker that grants every request and names the queue "amq.gen". *)
Definition healthy (ins : list arrival) : broker :=
  Broker true (Some (bytes_of_string "amq.gen")) true true true true ins.

Definition cat : list string := ["cat"%string].

(** The options of a run with a routing key and no exchange. *)
Definition routing_key_only : options :=
  Options (Some "orders"%string) None (Some "rk"%string) 0 0 (-1) (Some cat).

(** ** Notions used in the further statements *)

(** A character that a terminal prints as it is: not a control character,
    not DEL. *)
Definition printable (c : Z) : Prop := 32 <= c <= 255 /\ c <> 127.

(** The frames the loop reads when none of them is fatal: all of them
    without a limit, the first [count] with one. *)
Definition frames_read (count : Z) (ins : list arrival) : list arrival :=
  if count <? 0 then ins else take (Z.to_nat count) ins.

(** The delivery tags acknowledged in a trace, in the order of the calls. *)
Definition ack_tags (t : list event) : list Z :=
  flat_map (fun e => match e with
                     | ev_basic_ack _ tag _ => [tag]
                     | _ => []
                     end) t.

(** The delivery tag an arrival carries, if it is a delivery. *)
Definition arrival_tag (a : arrival) : list Z :=
  if is_delivery (frame a) then
    match method_decoded (frame a) with
    | Some d => [delivery_tag d]
    | None => []
    end
  else [].

Definition is_finish (e : event) : bool :=
  match e with ev_finish_pipeline => true | _ => false end.

Definition is_copy (e : event) : bool :=
  match e with ev_copy_body _ => true | _ => false end.

Definition is_bind (e : event) : bool :=
  match e with ev_queue_bind _ _ _ _ => true | _ => false end.

Definition is_stderr (e : event) : bool :=
  match e with ev_stderr _ => true | _ => false end.

(** The request is made on channel 1 (calls without a channel pass). *)
Definition on_channel_one (e : event) : bool :=
  match e with
  | ev_queue_declare ch _ _ _ _ _ | ev_queue_bind ch _ _ _
  | ev_basic_qos ch _ _ _ | ev_basic_consume ch _ _ _ _ _
  | ev_basic_ack ch _ _ => ch =? 1
  | _ => true
  end.

(** The byte string fits the buffer arithmetic of [stringify_bytes]. *)
Definition renderable (bytes : amqp_bytes_t) : Prop :=
  Forall uint8_t bytes /\ bytes_len bytes * 4 + 1 <= SIZE_MAX.

(** A run that, when it stops by [exit], does so with status 1. *)
Definition exits_one {A} (m : M A) : Prop :=
  forall s, result m = inr (Exit s) -> s = 1.

(** Somewhere in the byte string a backslash is followed by three octal
    digits that denote a byte, so that the four bytes look like an
    escape. *)
Fixpoint escape_lookalike (data : list Z) : bool :=
  match data with
  | [] => false
  | c :: tl =>
      match tl with
      | d1 :: d2 :: d3 :: _ =>
          (c =? 92) && octal_digit d1 && octal_digit d2 && octal_digit d3
          && (octal_value d1 d2 d3 <? 256)
      | _ => false
      end
      || escape_lookalike tl
  end.

(** The line that reports a queue name provided by the server. *)
Definition server_name_line (name : list Z) : string :=
  ("Server provided queue name: " ++ string_of_chars name ++ "
")%string.

Fixpoint starts_with (pre s : string) : bool :=
  match pre, s with
  | EmptyString, _ => true
  | String a pre', String c s' => Ascii.eqb a c && starts_with pre' s'
  | String _ _, EmptyString => false
  end.

Definition is_name_report (e : event) : bool :=
  match e with
  | ev_stderr msg => starts_with "Server provided queue name: " msg
  | _ => false
  end.

(** ** Proof steps *)

(** Case analysis on every test of a run, evaluating as far as possible. *)
Ltac split_ifs :=
  repeat first
    [ match goal with
      | |- context [if ?c then _ else _] => destruct c eqn:?
      | |- context [match ?c with Some _ => _ | None => _ end] => destruct c eqn:?
      end
    | progress cbn ].

(** Case analysis on every outcome of one pass through the loop body. *)
Ltac iteration_cases :=
  unfold iteration, die_amqp_error, pipeline, copy_body, finish_pipeline, die_rpc;
  split_ifs.

(** ** Facts about one escaped byte *)

Lemma octal_split (d : Z) :
  uint8_t d ->
  0 <= Z.shiftr d 6 <= 3 /\
  0 <= Z.land (Z.shiftr d 3) 7 <= 7 /\
  0 <= Z.land d 7 <= 7 /\
  64 * Z.shiftr d 6 + 8 * Z.land (Z.shiftr d 3) 7 + Z.land d 7 = d.
Proof.
  unfold uint8_t. intros Hd.
  rewrite !Z.shiftr_div_pow2 by lia.
  change 7 with (Z.ones 3). rewrite !Z.land_ones by lia.
  change (2 ^ 6) with 64. change (2 ^ 3) with 8. change (Z.ones 3) with 7.
  assert (d / 64 = d / 8 / 8) by (rewrite Z.div_div by lia; reflexivity).
  Z.div_mod_to_equations. lia.
Qed.

Lemma to_char_uint8 (d : Z) : uint8_t d -> to_char d = d.
Proof. unfold uint8_t, to_char. intros. apply Z.mod_small. lia. Qed.

Lemma escape_byte_uint8 (d : Z) : uint8_t d -> Forall uint8_t (escape_byte d).
Proof.
  intros Hd. destruct (octal_split d Hd) as (H1 & H2 & H3 & _).
  unfold escape_byte. destruct (literal d); repeat constructor;
    unfold uint8_t in *; lia.
Qed.

Lemma escape_byte_nonzero (d : Z) : uint8_t d -> Forall (fun c => c <> 0) (escape_byte d).
Proof.
  intros Hd. destruct (octal_split d Hd) as (H1 & H2 & H3 & _).
  unfold escape_byte. destruct (literal d) eqn:E; repeat constructor; try lia.
  unfold literal in E. lia.
Qed.

Lemma escape_byte_length (d : Z) :
  length (escape_byte d) = if literal d then 1%nat else 4%nat.
Proof. unfold escape_byte. destruct (literal d); reflexivity. Qed.

(** ** The buffer of stringify_bytes *)

Lemma poke_filled c out k :
  poke c (filled out (S k))
  = Some (Writer ((Some <$> out) ++ Some (to_char c) :: replicate k None) (length out)).
Proof.
  unfold poke, filled. simpl.
  rewrite decide_True by (rewrite length_app, length_fmap; simpl; lia).
  f_equal. f_equal.
  rewrite insert_app_r_alt by (rewrite length_fmap; lia).
  rewrite length_fmap, Nat.sub_diag. reflexivity.
Qed.

Lemma put_filled c out k :
  put c (filled out (S k)) = Some (filled (out ++ [to_char c]) k).
Proof.
  unfold put. rewrite poke_filled. simpl. unfold filled.
  rewrite fmap_app, <- app_assoc, length_app. simpl.
  do 2 f_equal. lia.
Qed.

Lemma stringify_step_filled d out k :
  uint8_t d ->
  stringify_step d (filled out (length (escape_byte d) + k))
  = Some (filled (out ++ escape_byte d) k).
Proof.
  intros Hd. pose proof (escape_byte_uint8 d Hd) as Hr.
  unfold stringify_step, escape_byte in *. destruct (literal d); simpl.
  - rewrite put_filled. inversion_clear Hr. rewrite to_char_uint8; done.
  - rewrite put_filled; simpl. rewrite put_filled; simpl.
    rewrite put_filled; simpl. rewrite put_filled.
    repeat match goal with H : Forall _ (_ :: _) |- _ => inversion_clear H end.
    rewrite !to_char_uint8 by (done || unfold uint8_t; lia).
    rewrite <- !app_assoc. reflexivity.
Qed.

Lemma stringify_loop_filled data : forall out k,
  Forall uint8_t data ->
  stringify_loop data (filled out (length (escaped data) + k))
  = Some (filled (out ++ escaped data) k).
Proof.
  induction data as [|d data IH]; intros out k Hd; simpl.
  - rewrite app_nil_r. reflexivity.
  - inversion_clear Hd as [|? ? Hd1 Hd2].
    unfold escaped; simpl; fold (escaped data).
    rewrite length_app, <- Nat.add_assoc.
    rewrite stringify_step_filled by done. simpl.
    rewrite IH by done. rewrite app_assoc. reflexivity.
Qed.
Lemma escaped_cons d data : escaped (d :: data) = escape_byte d ++ escaped data.
Proof. reflexivity. Qed.

Lemma escaped_app a b : escaped (a ++ b) = escaped a ++ escaped b.
Proof. unfold escaped. apply flat_map_app. Qed.

Lemma escaped_length data :
  length (escaped data)
  = (length (List.filter literal data)
     + 4 * length (List.filter (fun d => negb (literal d)) data))%nat.
Proof.
  induction data as [|d data IH]; simpl; [reflexivity|].
  unfold escaped in *; simpl. rewrite length_app, IH, escape_byte_length.
  destruct (literal d); simpl; lia.
Qed.

Lemma escaped_length_le data : (length (escaped data) <= 4 * length data)%nat.
Proof.
  induction data as [|d data IH]; simpl; [lia|].
  unfold escaped in *; simpl. rewrite length_app, escape_byte_length.
  destruct (literal d); lia.
Qed.

Lemma escaped_nonzero data :
  Forall uint8_t data -> Forall (fun c => c <> 0) (escaped data).
Proof.
  induction 1 as [|d data Hd _ IH]; [constructor|].
  unfold escaped in *; simpl. apply Forall_app; split; [|exact IH].
  apply escape_byte_nonzero, Hd.
Qed.

Lemma c_str_terminated out rest :
  Forall (fun c => c <> 0) out ->
  c_str ((Some <$> out) ++ Some 0 :: rest) = Some out.
Proof.
  induction 1 as [|c out Hc _ IH]; [reflexivity|].
  rewrite fmap_cons. cbn [app c_str].
  destruct (Z.eqb_spec c 0); [contradiction|]. rewrite IH. reflexivity.
Qed.

Lemma malloc_filled n : malloc (Z.of_nat n) = res (filled [] n).
Proof. unfold malloc. rewrite Nat2Z.id. reflexivity. Qed.

Lemma stringify_run_filled data :
  Forall uint8_t data ->
  bytes_len data * 4 + 1 <= SIZE_MAX ->
  stringify_run data
  = Some (Writer ((Some <$> escaped data)
                    ++ Some 0 :: replicate (4 * length data - length (escaped data)) None)
                 (length (escaped data))).
Proof.
  intros Hd Hsz. unfold stringify_run, bytes_len, SIZE_MAX, size_t_wrap in *.
  rewrite Z.mod_small by lia.
  pose proof (escaped_length_le data) as Hle.
  replace (Z.of_nat (length data) * 4 + 1)
    with (Z.of_nat (length (escaped data)
                    + S (4 * length data - length (escaped data)))) by lia.
  rewrite malloc_filled.
  change (Writer (res (filled [] ?n)) 0) with (filled [] n).
  rewrite stringify_loop_filled by exact Hd. simpl.
  rewrite poke_filled. rewrite to_char_uint8 by (unfold uint8_t; lia).
  reflexivity.
Qed.

Lemma stringify_string_escaped data :
  Forall uint8_t data ->
  bytes_len data * 4 + 1 <= SIZE_MAX ->
  stringify_string data = Some (escaped data).
Proof.
  intros Hd Hsz. unfold stringify_string, stringify_bytes.
  rewrite stringify_run_filled by assumption. simpl.
  apply c_str_terminated, escaped_nonzero, Hd.
Qed.

Lemma octal_decode_plain c tl :
  c <> 92 -> octal_decode (c :: tl) = c :: octal_decode tl.
Proof.
  intros Hc. destruct tl as [|d1 [|d2 [|d3 rest]]]; try reflexivity.
  cbn [octal_decode]. destruct (Z.eqb_spec c 92); [contradiction|]. reflexivity.
Qed.

Lemma octal_decode_escape d tl :
  uint8_t d ->
  octal_decode
    (92 :: 48 + Z.shiftr d 6 :: 48 + Z.land (Z.shiftr d 3) 7 :: 48 + Z.land d 7 :: tl)
  = d :: octal_decode tl.
Proof.
  intros Hd. destruct (octal_split d Hd) as (H1 & H2 & H3 & H4).
  cbn [octal_decode]. unfold octal_digit, octal_value.
  replace (64 * (48 + Z.shiftr d 6 - 48) + 8 * (48 + Z.land (Z.shiftr d 3) 7 - 48)
           + (48 + Z.land d 7 - 48)) with d by lia.
  unfold uint8_t in Hd.
  repeat match goal with
  | |- context [?a <=? ?b] => destruct (Z.leb_spec a b); [|lia]
  | |- context [?a <? ?b] => destruct (Z.ltb_spec a b); [|lia]
  end.
  reflexivity.
Qed.

Lemma octal_decode_escaped data :
  Forall uint8_t data ->
  Forall (fun d => d <> 92) data ->
  octal_decode (escaped data) = data.
Proof.
  induction data as [|d data IH]; intros Hd Hb; [reflexivity|].
  inversion_clear Hd as [|? ? Hd1 Hd2]. inversion_clear Hb as [|? ? Hb1 Hb2].
  rewrite escaped_cons. unfold escape_byte.
  destruct (literal d); cbn [app].
  - rewrite octal_decode_plain by exact Hb1. rewrite IH by assumption. reflexivity.
  - rewrite octal_decode_escape by exact Hd1. rewrite IH by assumption. reflexivity.
Qed.

(** C6. Each input byte [b] is rendered on its own, between the renderings
    of the bytes before and after it: as [b] itself when [b >= 32] and
    [b <> 127], and otherwise as a backslash followed by the three octal
    digits [b >> 6], [(b >> 3) & 7] and [b & 7], whose value is [b]. *)
Theorem stringify_bytes_renders_each_byte (pre post : list Z) (b : Z) :
  Forall uint8_t (pre ++ b :: post) ->
  bytes_len (pre ++ b :: post) * 4 + 1 <= SIZE_MAX ->
  exists s_pre s_post,
    stringify_string pre = Some s_pre /\
    stringify_string post = Some s_post /\
    (32 <= b /\ b <> 127 ->
       stringify_string (pre ++ b :: post) = Some (s_pre ++ [b] ++ s_post)) /\
    (b < 32 \/ b = 127 ->
       stringify_string (pre ++ b :: post)
       = Some (s_pre
               ++ [92; 48 + Z.shiftr b 6; 48 + Z.land (Z.shiftr b 3) 7;
                   48 + Z.land b 7]
               ++ s_post)) /\
    0 <= Z.shiftr b 6 <= 7 /\
    0 <= Z.land (Z.shiftr b 3) 7 <= 7 /\
    0 <= Z.land b 7 <= 7 /\
    64 * Z.shiftr b 6 + 8 * Z.land (Z.shiftr b 3) 7 + Z.land b 7 = b.
Proof.
  intros Hd Hsz.
  pose proof Hd as Hd'. apply Forall_app in Hd' as [Hpre Hpost].
  inversion_clear Hpost as [|? ? Hb Hpost'].
  assert (Hlen : bytes_len (pre ++ b :: post)
                 = bytes_len pre + 1 + bytes_len post).
  { unfold bytes_len. rewrite length_app. simpl. lia. }
  assert (0 <= bytes_len pre /\ 0 <= bytes_len post) as [? ?]
    by (unfold bytes_len; lia).
  exists (escaped pre), (escaped post).
  rewrite !stringify_string_escaped by (assumption || lia).
  rewrite escaped_app, escaped_cons. unfold escape_byte.
  destruct (octal_split b Hb) as (H1 & H2 & H3 & H4).
  unfold literal.
  repeat split; try lia.
  - intros [? ?].
    destruct (Z.leb_spec 32 b); [|lia]. destruct (Z.eqb_spec b 127); [lia|].
    reflexivity.
  - intros [?|?].
    + destruct (Z.leb_spec 32 b); [lia|]. reflexivity.
    + destruct (Z.eqb_spec b 127); [|lia]. rewrite andb_false_r. reflexivity.
Qed.

Lemma stringify_bytes_renders_each_byte_witness :
  stringify_string ([65] ++ 1 :: [127]) = Some [65; 92; 48; 48; 49; 92; 49; 55; 55].
Proof.
  destruct (stringify_bytes_renders_each_byte [65] [127] 1)
    as (s_pre & s_post & Hpre & Hpost & _ & Hesc & _).
  - repeat constructor; unfold uint8_t; lia.
  - unfold bytes_len, SIZE_MAX; simpl; lia.
  - rewrite Hesc by lia.
    vm_compute in Hpre. vm_compute in Hpost.
    injection Hpre as <-. injection Hpost as <-. reflexivity.
Defined.

(** C10. On an input of [len] bytes no store of [stringify_bytes] falls
    outside the [4 * len + 1] characters allocated: the run completes, having
    written one character for each byte kept and four for each byte escaped,
    then the terminating 0, and the result reads back as a C string. *)
Theorem stringify_bytes_within_allocation (data : list Z) :
  Forall uint8_t data ->
  bytes_len data * 4 + 1 <= SIZE_MAX ->
  exists w,
    stringify_run data = Some w /\
    Z.of_nat (length (res w)) = bytes_len data * 4 + 1 /\
    p w = (length (List.filter literal data)
           + 4 * length (List.filter (fun d => negb (literal d)) data))%nat /\
    (p w + 1 <= length (res w))%nat /\
    take (p w) (res w) = Some <$> escaped data /\
    res w !! p w = Some (Some 0) /\
    (exists s, c_str (res w) = Some s /\ length s = p w).
Proof.
  intros Hd Hsz. eexists. split; [apply stringify_run_filled; assumption|].
  pose proof (escaped_length_le data) as Hle.
  cbn [res p]. unfold bytes_len.
  rewrite length_app, length_fmap. cbn [length]. rewrite length_replicate.
  repeat split.
  - lia.
  - apply escaped_length.
  - lia.
  - rewrite take_app_length'; [reflexivity | symmetry; apply length_fmap].
  - rewrite lookup_app_r by (rewrite length_fmap; lia).
    rewrite length_fmap, Nat.sub_diag. reflexivity.
  - exists (escaped data). split; [|reflexivity].
    apply c_str_terminated, escaped_nonzero, Hd.
Qed.

Lemma stringify_bytes_within_allocation_witness :
  exists w, stringify_run [104; 10; 105] = Some w /\ p w = 6%nat /\ length (res w) = 13%nat.
Proof.
  destruct (stringify_bytes_within_allocation [104; 10; 105])
    as (w & Hrun & Hlen & Hp & _).
  - repeat constructor; unfold uint8_t; lia.
  - unfold bytes_len, SIZE_MAX; simpl; lia.
  - exists w. split; [exact Hrun|]. split; [exact Hp|].
    unfold bytes_len in Hlen. cbn [length] in Hlen. lia.
Defined.

(** C5, where the code departs from it.  The escaping stands for the
    conventions of rabbitmqctl (comment above [stringify_bytes]) but leaves
    the backslash itself unescaped: the four bytes of the text [\001] are
    rendered exactly like the single byte 1, so the rendering is not
    injective, and decoding it yields the byte 1, not the four bytes. *)
Lemma stringify_bytes_backslash_not_reversible :
  stringify_string [92; 48; 48; 49] = stringify_string [1] /\
  octal_decode <$> stringify_string [92; 48; 48; 49] = Some [1] /\
  octal_decode <$> stringify_string [92; 48; 48; 49] <> Some [92; 48; 48; 49].
Proof.
  assert (H : stringify_string [92; 48; 48; 49] = Some [92; 48; 48; 49])
    by (vm_compute; reflexivity).
  assert (H1 : stringify_string [1] = Some [92; 48; 48; 49])
    by (vm_compute; reflexivity).
  rewrite H, H1. repeat split. cbn. discriminate.
Qed.

(** ** Runs and their traces *)

Lemma bind_unfold {A B} (m : M A) (k : A -> M B) :
  m ≫= k = match result m with
            | inl a => Run (trace m ++ trace (k a)) (result (k a))
            | inr h => Run (trace m) (inr h)
            end.
Proof. reflexivity. Qed.

Lemma trace_bind_returned {A B} (m : M A) (k : A -> M B) a :
  result m = inl a -> trace (m ≫= k) = trace m ++ trace (k a).
Proof. intros H. rewrite bind_unfold, H. reflexivity. Qed.

Lemma result_bind_returned {A B} (m : M A) (k : A -> M B) a :
  result m = inl a -> result (m ≫= k) = result (k a).
Proof. intros H. rewrite bind_unfold, H. reflexivity. Qed.

Lemma trace_bind_prefix {A B} (m : M A) (k : A -> M B) :
  exists t, trace (m ≫= k) = trace m ++ t.
Proof.
  rewrite bind_unfold. destruct (result m) as [a|h]; cbn [trace].
  - eexists; reflexivity.
  - exists []. symmetry. apply app_nil_r.
Qed.

Lemma count_ev_app f t1 t2 :
  count_ev f (t1 ++ t2) = (count_ev f t1 + count_ev f t2)%nat.
Proof. unfold count_ev. rewrite List.filter_app. apply length_app. Qed.

Lemma count_ev_bind_le {A B} f (m : M A) (k : A -> M B) n :
  (forall a, (count_ev f (trace (k a)) <= n)%nat) ->
  (count_ev f (trace (m ≫= k)) <= count_ev f (trace m) + n)%nat.
Proof.
  intros Hk. rewrite bind_unfold. destruct (result m) as [a|h]; cbn [trace].
  - rewrite count_ev_app. specialize (Hk a). lia.
  - lia.
Qed.

Lemma count_ev_zero_Forall f t :
  count_ev f t = 0%nat <-> Forall (fun e => f e = false) t.
Proof.
  unfold count_ev. induction t as [|e t IH]; cbn [List.filter].
  - split; [constructor | reflexivity].
  - destruct (f e) eqn:E; cbn [length]; split.
    + discriminate.
    + intros H. inversion_clear H. congruence.
    + intros H. constructor; [exact E | apply IH, H].
    + intros H. inversion_clear H. apply IH. assumption.
Qed.

(** ** int *)

Lemma int_wrap_succ i : INT_MIN - 1 <= i < INT_MAX -> int_wrap (i + 1) = i + 1.
Proof.
  unfold INT_MIN, INT_MAX, int_wrap. intros H.
  rewrite Z.mod_small by lia. lia.
Qed.

Lemma to_uint16_small n : 0 <= n <= 65535 -> to_uint16 n = n.
Proof. unfold to_uint16. intros. apply Z.mod_small. lia. Qed.

(** ** One iteration *)

Lemma pipeline_success_Forall a :
  pipeline_success a = true <-> Forall (fun s => s = 0) (stage_status a).
Proof.
  unfold pipeline_success. rewrite forallb_forall, List.Forall_forall.
  split; intros H s Hs; specialize (H s Hs); lia.
Qed.

Lemma pipeline_failure_Exists a :
  pipeline_success a = false <-> Exists (fun s => s <> 0) (stage_status a).
Proof.
  unfold pipeline_success. induction (stage_status a) as [|s l IH]; cbn [forallb].
  - split; [discriminate | intros H; inversion H].
  - destruct (Z.eqb_spec 0 s) as [<-|Hs]; cbn [andb].
    + rewrite IH. split; [intros H; right; exact H|].
      intros H. inversion_clear H; [contradiction | assumption].
    + split; [intros _; left; congruence | reflexivity].
Qed.

(** The loop body waits for exactly one frame and spawns at most one
    pipeline, whatever arrives. *)
Lemma iteration_waits_once no_ack argv a :
  count_ev is_wait (trace (iteration no_ack argv a)) = 1%nat.
Proof.
  unfold iteration, die_amqp_error, pipeline, copy_body, finish_pipeline, die_rpc.
  split_ifs; reflexivity.
Qed.

Lemma iteration_spawns_at_most_once no_ack argv a :
  (count_ev is_pipeline (trace (iteration no_ack argv a)) <= 1)%nat.
Proof.
  unfold iteration, die_amqp_error, pipeline, copy_body, finish_pipeline, die_rpc.
  split_ifs; cbn; lia.
Qed.

Lemma iteration_starts_waiting no_ack argv a :
  exists t, trace (iteration no_ack argv a) = ev_simple_wait_frame :: t.
Proof.
  unfold iteration. rewrite bind_unfold. cbn [call result trace app].
  eexists; reflexivity.
Qed.

Lemma iteration_harmless no_ack argv a :
  harmless a = true -> result (iteration no_ack argv a) = inl tt.
Proof.
  unfold harmless, is_delivery, is_null. intros H.
  unfold iteration, die_amqp_error, pipeline, copy_body, finish_pipeline, die_rpc.
  destruct (Z.leb_spec 0 (wait_res a)); [|discriminate].
  destruct (Z.ltb_spec (wait_res a) 0); [lia|].
  destruct (frame_type (frame a) =? AMQP_FRAME_METHOD);
    destruct (method_id (frame a) =? AMQP_BASIC_DELIVER_METHOD);
    cbn [negb orb andb] in *; try reflexivity.
  destruct (method_decoded (frame a)); [|discriminate].
  destruct (spawn_ok a); [|discriminate]. destruct (copy_ok a); [|discriminate].
  cbn [negb orb andb] in H.
  destruct (Z.leb_spec 0 (ack_res a)); [|discriminate].
  destruct (Z.ltb_spec (ack_res a) 0); [lia|].
  split_ifs; reflexivity.
Qed.

(** A frame that is not a delivery leaves no trace but the wait. *)
Lemma iteration_discards no_ack argv a :
  0 <= wait_res a ->
  is_delivery (frame a) = false ->
  iteration no_ack argv a = Run [ev_simple_wait_frame] (inl tt).
Proof.
  unfold is_delivery. intros Hw Hf.
  unfold iteration, die_amqp_error.
  destruct (Z.ltb_spec (wait_res a) 0); [lia|].
  destruct (frame_type (frame a) =? AMQP_FRAME_METHOD);
    destruct (method_id (frame a) =? AMQP_BASIC_DELIVER_METHOD);
    try discriminate; reflexivity.
Qed.

(** A dispatched delivery that reaches the end of its pipeline. *)
Lemma iteration_dispatches no_ack argv a ch d :
  0 <= wait_res a ->
  frame a = frame_method ch AMQP_BASIC_DELIVER_METHOD (decoded_basic_deliver d) ->
  spawn_ok a = true ->
  copy_ok a = true ->
  iteration no_ack argv a
  = Run ([ev_simple_wait_frame; ev_pipeline argv; ev_copy_body (body a);
          ev_finish_pipeline]
         ++ (if pipeline_success a && (no_ack =? 0)
             then ev_basic_ack 1 (delivery_tag d) 0
                  :: (if ack_res a <? 0 then [ev_die "basic.ack"]
                      else [ev_maybe_release_buffers])
             else [ev_maybe_release_buffers]))
        (if pipeline_success a && (no_ack =? 0) && (ack_res a <? 0)
         then inr (Exit 1) else inl tt).
Proof.
  intros Hw Hf Hs Hc.
  unfold iteration, die_amqp_error, pipeline, copy_body, finish_pipeline.
  rewrite Hf, Hs, Hc. destruct (Z.ltb_spec (wait_res a) 0); [lia|].
  cbn [frame_type method_id method_decoded].
  rewrite !Z.eqb_refl. cbn [negb orb].
  destruct (pipeline_success a), (no_ack =? 0), (ack_res a <? 0); reflexivity.
Qed.

(** ** The loop *)

Lemma consume_loop_enter no_ack count argv i a rest :
  count < 0 \/ i < count ->
  consume_loop no_ack count argv i (a :: rest)
  = (iteration no_ack argv a ;;
     consume_loop no_ack count argv (int_wrap (i + 1)) rest).
Proof.
  intros H. cbn [consume_loop].
  destruct (Z.ltb_spec count 0), (Z.ltb_spec i count); try reflexivity; lia.
Qed.

Lemma consume_loop_leave no_ack count argv i ins :
  0 <= count <= i -> consume_loop no_ack count argv i ins = mret tt.
Proof.
  intros H. destruct ins; cbn [consume_loop];
    destruct (Z.ltb_spec count 0), (Z.ltb_spec i count); try reflexivity; lia.
Qed.

Lemma consume_loop_starts_waiting no_ack count argv i ins :
  count < 0 \/ i < count ->
  exists t, trace (consume_loop no_ack count argv i ins) = ev_simple_wait_frame :: t.
Proof.
  intros H. destruct ins as [|a rest].
  - cbn [consume_loop].
    destruct (Z.ltb_spec count 0), (Z.ltb_spec i count); try lia;
      eexists; reflexivity.
  - rewrite consume_loop_enter by exact H.
    destruct (trace_bind_prefix (iteration no_ack argv a)
                (fun _ => consume_loop no_ack count argv (int_wrap (i + 1)) rest))
      as [t Ht].
    destruct (iteration_starts_waiting no_ack argv a) as [t' Ht'].
    rewrite Ht, Ht'. eexists; reflexivity.
Qed.

Lemma consume_loop_unbounded no_ack count argv ins :
  count < 0 ->
  Forall (fun a => harmless a = true) ins ->
  forall i,
    result (consume_loop no_ack count argv i ins) = inr Block /\
    count_ev is_wait (trace (consume_loop no_ack count argv i ins))
    = S (length ins).
Proof.
  intros Hc. induction 1 as [|a rest Ha _ IH]; intros i.
  - cbn [consume_loop]. destruct (Z.ltb_spec count 0); [|lia].
    split; reflexivity.
  - rewrite consume_loop_enter by (left; exact Hc).
    pose proof (iteration_harmless no_ack argv a Ha) as Hr.
    destruct (IH (int_wrap (i + 1))) as [IHr IHt].
    rewrite (result_bind_returned _ _ _ Hr), (trace_bind_returned _ _ _ Hr).
    rewrite count_ev_app, iteration_waits_once, IHr, IHt.
    split; reflexivity.
Qed.

Lemma consume_loop_bounded f no_ack count argv ins :
  (forall a, (count_ev f (trace (iteration no_ack argv a)) <= 1)%nat) ->
  0 <= count <= INT_MAX ->
  forall i, 0 <= i ->
    Z.of_nat (count_ev f (trace (consume_loop no_ack count argv i ins)))
    <= Z.max 0 (count - i).
Proof.
  intros Hf Hc. induction ins as [|a rest IH]; intros i Hi.
  - cbn [consume_loop].
    destruct (Z.ltb_spec count 0), (Z.ltb_spec i count); try lia;
      cbn [orb]; unfold count_ev; cbn; [|lia].
    destruct (f ev_simple_wait_frame); cbn; lia.
  - destruct (Z.lt_ge_cases i count) as [Hlt|Hge].
    + rewrite consume_loop_enter by (right; exact Hlt).
      rewrite int_wrap_succ by (unfold INT_MIN, INT_MAX in *; lia).
      specialize (IH (i + 1) ltac:(lia)). specialize (Hf a).
      pose proof (count_ev_bind_le f (iteration no_ack argv a)
        (fun _ => consume_loop no_ack count argv (i + 1) rest)
        (count_ev f (trace (consume_loop no_ack count argv (i + 1) rest)))
        (fun _ => Nat.le_refl _)) as Hle.
      lia.
    + rewrite consume_loop_leave by lia. cbn. lia.
Qed.

Lemma consume_loop_without f no_ack count argv ins :
  f ev_simple_wait_frame = false ->
  (forall a, count_ev f (trace (iteration no_ack argv a)) = 0%nat) ->
  forall i, count_ev f (trace (consume_loop no_ack count argv i ins)) = 0%nat.
Proof.
  intros Hw Hf. induction ins as [|a rest IH]; intros i; cbn [consume_loop].
  - destruct ((count <? 0) || (i <? count)); unfold count_ev; cbn;
      rewrite ?Hw; reflexivity.
  - destruct ((count <? 0) || (i <? count)); [|reflexivity].
    pose proof (count_ev_bind_le f (iteration no_ack argv a)
      (fun _ => consume_loop no_ack count argv (int_wrap (i + 1)) rest) 0
      (fun _ => Nat.eq_le_incl _ _ (IH _))) as Hle.
    rewrite Hf in Hle. lia.
Qed.

Lemma iteration_without_qos no_ack argv a :
  count_ev is_qos (trace (iteration no_ack argv a)) = 0%nat.
Proof.
  unfold iteration, die_amqp_error, pipeline, copy_body, finish_pipeline, die_rpc.
  split_ifs; reflexivity.
Qed.

(** ** do_consume *)

Lemma do_consume_unfold b queue no_ack count argv :
  do_consume b queue no_ack count argv
  = let limited := (0 <? count) && (count <=? 65535) in
    let loop := consume_loop no_ack count argv 0 (arrivals b) in
    let requests :=
      (if limited then [ev_basic_qos 1 0 (to_uint16 count) 0] else [])
      ++ [ev_basic_consume 1 queue amqp_empty_bytes 0 no_ack 0] in
    if limited && negb (qos_ok b)
    then Run [ev_basic_qos 1 0 (to_uint16 count) 0; ev_die "basic.qos"]
             (inr (Exit 1))
    else if consume_ok b
    then Run (requests ++ trace loop) (result loop)
    else Run (requests ++ [ev_die "basic.consume"]) (inr (Exit 1)).
Proof.
  unfold do_consume, die_rpc.
  destruct ((0 <? count) && (count <=? 65535)), (qos_ok b), (consume_ok b);
    cbn [andb negb]; rewrite !bind_unfold; cbn; try reflexivity;
    destruct (result (consume_loop no_ack count argv 0 (arrivals b)));
    reflexivity.
Qed.

(** ** Deliveries *)

Section Dispatched.

(** A delivery that is received while the loop runs and gets as far as
    the end of its pipeline. *)
Variables (no_ack count : Z) (argv : list string) (i : Z).
Variables (a : arrival) (rest : list arrival).
Variables (ch : Z) (d : amqp_basic_deliver_t).

Hypothesis loop_running : count < 0 \/ i < count.
Hypothesis frame_received : 0 <= wait_res a.
Hypothesis frame_is_delivery :
  frame a = frame_method ch AMQP_BASIC_DELIVER_METHOD (decoded_basic_deliver d).
Hypothesis pipeline_spawned : spawn_ok a = true.
Hypothesis body_copied : copy_ok a = true.

(** C1. In ack mode a delivery whose pipeline exits with status zero is
    acknowledged exactly once, with its own delivery tag and the multiple
    flag clear, after its body has been copied to the pipeline and the
    pipeline has been waited on. *)
Theorem ack_after_successful_delivery :
  no_ack = 0 ->
  Forall (fun s => s = 0) (stage_status a) ->
  let run := consume_loop no_ack count argv i (a :: rest) in
  let next := consume_loop no_ack count argv (int_wrap (i + 1)) rest in
  count_ev is_ack (trace (iteration no_ack argv a)) = 1%nat /\
  trace run
  = [ev_simple_wait_frame; ev_pipeline argv; ev_copy_body (body a);
     ev_finish_pipeline; ev_basic_ack 1 (delivery_tag d) 0]
    ++ (if ack_res a <? 0 then [ev_die "basic.ack"]
        else ev_maybe_release_buffers :: trace next) /\
  result run = if ack_res a <? 0 then inr (Exit 1) else result next.
Proof.
  intros Hack Hz run next. subst run next.
  apply pipeline_success_Forall in Hz.
  rewrite consume_loop_enter by exact loop_running.
  rewrite (iteration_dispatches no_ack argv a ch d frame_received
             frame_is_delivery pipeline_spawned body_copied), Hz, Hack.
  rewrite bind_unfold. cbn [andb Z.eqb result trace].
  destruct (ack_res a <? 0); repeat split; reflexivity.
Qed.

(** C2. A delivery whose pipeline exits with a non-zero status is not
    acknowledged, in ack mode or in no-ack mode; nothing terminates the
    process, and the loop goes on with its next iteration, which waits for
    the next frame. *)
Theorem no_ack_after_failed_pipeline :
  Exists (fun s => s <> 0) (stage_status a) ->
  let run := consume_loop no_ack count argv i (a :: rest) in
  let next := consume_loop no_ack count argv (int_wrap (i + 1)) rest in
  iteration no_ack argv a
  = Run [ev_simple_wait_frame; ev_pipeline argv; ev_copy_body (body a);
         ev_finish_pipeline; ev_maybe_release_buffers] (inl tt) /\
  trace run
  = [ev_simple_wait_frame; ev_pipeline argv; ev_copy_body (body a);
     ev_finish_pipeline; ev_maybe_release_buffers] ++ trace next /\
  result run = result next /\
  (count < 0 \/ int_wrap (i + 1) < count ->
   exists t, trace next = ev_simple_wait_frame :: t).
Proof.
  intros Hnz run next. subst run next.
  apply pipeline_failure_Exists in Hnz.
  rewrite consume_loop_enter by exact loop_running.
  rewrite (iteration_dispatches no_ack argv a ch d frame_received
             frame_is_delivery pipeline_spawned body_copied), Hnz.
  rewrite bind_unfold. cbn [andb result trace app].
  repeat split. apply consume_loop_starts_waiting.
Qed.

End Dispatched.

Lemma ack_after_successful_delivery_witness :
  trace (consume_loop 0 2 cat 0 [delivery 42 0])
  = [ev_simple_wait_frame; ev_pipeline cat; ev_copy_body [104; 105];
     ev_finish_pipeline; ev_basic_ack 1 42 0; ev_maybe_release_buffers;
     ev_simple_wait_frame].
Proof.
  destruct (ack_after_successful_delivery 0 2 cat 0 (delivery 42 0) [] 1
              (BasicDeliver [] 42 0 [] [])) as (_ & Ht & _).
  - right; lia.
  - cbn; lia.
  - reflexivity.
  - reflexivity.
  - reflexivity.
  - reflexivity.
  - repeat constructor.
  - exact Ht.
Defined.

Lemma no_ack_after_failed_pipeline_witness :
  trace (consume_loop 0 (-1) cat 0 [delivery 42 1; delivery 43 0])
  = [ev_simple_wait_frame; ev_pipeline cat; ev_copy_body [104; 105];
     ev_finish_pipeline; ev_maybe_release_buffers]
    ++ trace (consume_loop 0 (-1) cat 1 [delivery 43 0]).
Proof.
  destruct (no_ack_after_failed_pipeline 0 (-1) cat 0 (delivery 42 1)
              [delivery 43 0] 1 (BasicDeliver [] 42 0 [] []))
    as (_ & Ht & _).
  - left; lia.
  - cbn; lia.
  - reflexivity.
  - reflexivity.
  - reflexivity.
  - left. cbn. lia.
  - exact Ht.
Defined.

(** C8, where the code departs from it.  With [count = 1], a heartbeat
    frame followed by a delivery: the heartbeat uses up the only iteration,
    the loop ends instead of waiting for the next frame, and the delivery is
    never handled. *)
Theorem discarded_frame_uses_up_the_count :
  do_consume (healthy [heartbeat; delivery 7 0]) (bytes_of_string "q") 0 1 cat
  = Run [ev_basic_qos 1 0 1 0;
         ev_basic_consume 1 (bytes_of_string "q") [] 0 0 0;
         ev_simple_wait_frame]
        (inl tt).
Proof. vm_compute. reflexivity. Qed.

(** What does hold of a frame that is not a delivery: the loop body makes
    no call but the wait, and the counter advances like after a delivery. *)
Lemma discarded_frame_is_skipped no_ack count argv i a rest :
  count < 0 \/ i < count ->
  0 <= wait_res a ->
  is_delivery (frame a) = false ->
  consume_loop no_ack count argv i (a :: rest)
  = (call ev_simple_wait_frame ;;
     consume_loop no_ack count argv (int_wrap (i + 1)) rest).
Proof.
  intros Hloop Hw Hf. rewrite consume_loop_enter by exact Hloop.
  rewrite iteration_discards by assumption. reflexivity.
Qed.

(** A frame is dispatched only if it is a method frame with the method id
    of basic.deliver. *)
Lemma pipeline_only_for_delivery no_ack argv a :
  (0 < count_ev is_pipeline (trace (iteration no_ack argv a)))%nat ->
  exists ch decoded,
    frame a = frame_method ch AMQP_BASIC_DELIVER_METHOD decoded.
Proof.
  unfold iteration, die_amqp_error, pipeline, copy_body, finish_pipeline, die_rpc.
  destruct (wait_res a <? 0); [cbn; lia|].
  destruct (frame a) as [ch id dec| | |]; cbn [frame_type method_id];
    try (cbn; lia).
  destruct (Z.eqb_spec id AMQP_BASIC_DELIVER_METHOD) as [->|];
    [|rewrite Z.eqb_refl; cbn; lia].
  intros _. eauto.
Qed.

(** ** The count limit and QoS *)

Lemma runs_unbounded_negative no_ack count : count < 0 -> runs_unbounded no_ack count.
Proof.
  intros Hc b queue argv Hq Hcons Hins run. subst run.
  rewrite do_consume_unfold. cbn zeta.
  destruct (Z.ltb_spec 0 count); [lia|]. cbn [andb]. rewrite Hcons.
  cbn [trace result app].
  destruct (consume_loop_unbounded no_ack count argv (arrivals b) Hc Hins 0)
    as [Hr Ht].
  split; [exact Hr|].
  change (ev_basic_consume 1 queue amqp_empty_bytes 0 no_ack 0
          :: trace (consume_loop no_ack count argv 0 (arrivals b)))
    with ([ev_basic_consume 1 queue amqp_empty_bytes 0 no_ack 0]
          ++ trace (consume_loop no_ack count argv 0 (arrivals b))).
  rewrite count_ev_app, Ht. reflexivity.
Qed.

Lemma do_consume_bounded f b queue no_ack count argv :
  (forall a, (count_ev f (trace (iteration no_ack argv a)) <= 1)%nat) ->
  f (ev_basic_qos 1 0 (to_uint16 count) 0) = false ->
  f (ev_basic_consume 1 queue amqp_empty_bytes 0 no_ack 0) = false ->
  f (ev_die "basic.qos") = false ->
  f (ev_die "basic.consume") = false ->
  0 <= count <= INT_MAX ->
  Z.of_nat (count_ev f (trace (do_consume b queue no_ack count argv))) <= count.
Proof.
  intros Hf H1 H2 H3 H4 Hc.
  pose proof (consume_loop_bounded f no_ack count argv (arrivals b) Hf Hc 0
                ltac:(lia)) as Hb.
  rewrite do_consume_unfold. cbn zeta.
  destruct ((0 <? count) && (count <=? 65535)), (qos_ok b), (consume_ok b);
    cbn [andb negb trace app]; unfold count_ev in *; cbn [List.filter];
    rewrite ?H1, ?H2, ?H3, ?H4; cbn [List.filter length]; lia.
Qed.

(** C3 fails for a count of 0 and for a count of 65536: no QoS call is
    made for either, and yet the loop comes to an end. *)
Lemma count_outside_qos_range_still_bounds_the_loop :
  ~ runs_unbounded 0 0 /\ ~ runs_unbounded 0 65536.
Proof.
  split; intros H.
  - destruct (H (healthy []) [] cat) as [Hr _]; try reflexivity; [constructor|].
    vm_compute in Hr. discriminate.
  - destruct (H (healthy (replicate (Z.to_nat 65536) heartbeat)) [] cat) as [_ Ht];
      try reflexivity.
    { apply Forall_replicate. reflexivity. }
    pose proof (do_consume_bounded is_wait
      (healthy (replicate (Z.to_nat 65536) heartbeat)) [] 0 65536 cat) as Hb.
    cbv zeta in Ht. rewrite Ht in Hb.
    cbn [arrivals healthy] in Hb. rewrite length_replicate in Hb.
    specialize (Hb (fun a => Nat.eq_le_incl _ _ (iteration_waits_once 0 cat a))).
    unfold INT_MAX in Hb. cbn [is_wait] in Hb.
    specialize (Hb eq_refl eq_refl eq_refl eq_refl ltac:(lia)). lia.
Qed.

(** C3, as far as it holds.  With [1 <= count <= 65535] the first request is
    a QoS with that prefetch count, the consume request follows it, and at
    most [count] deliveries are processed.  Outside that range no QoS call
    is made.  The loop runs unbounded when [count] is negative (unset is
    -1); a count of 0 or above 65535 still bounds the number of frames
    waited for. *)
Theorem qos_and_loop_bound
    (b : broker) (queue : amqp_bytes_t) (no_ack count : Z) (argv : list string) :
  int_range count ->
  let run := do_consume b queue no_ack count argv in
  (1 <= count <= 65535 ->
     (exists t, trace run = ev_basic_qos 1 0 count 0 :: t /\
        (qos_ok b = true ->
         exists t', t = ev_basic_consume 1 queue amqp_empty_bytes 0 no_ack 0 :: t')) /\
     Z.of_nat (count_ev is_pipeline (trace run)) <= count) /\
  (count < 1 \/ 65535 < count -> count_ev is_qos (trace run) = 0%nat) /\
  (count < 0 -> runs_unbounded no_ack count) /\
  (0 <= count ->
     Z.of_nat (count_ev is_wait (trace run)) <= count /\
     Z.of_nat (count_ev is_pipeline (trace run)) <= count).
Proof.
  intros [Hlo Hhi] run. subst run.
  assert (Hpipe : 0 <= count ->
            Z.of_nat (count_ev is_pipeline
                        (trace (do_consume b queue no_ack count argv))) <= count).
  { intros H0. apply do_consume_bounded; try reflexivity; [|lia].
    intros a. apply iteration_spawns_at_most_once. }
  split; [intros Hr; split | split; [|split]].
  - rewrite do_consume_unfold. cbn zeta.
    destruct (Z.ltb_spec 0 count); [|lia].
    destruct (Z.leb_spec count 65535); [|lia].
    rewrite to_uint16_small by lia. cbn [andb].
    destruct (qos_ok b), (consume_ok b); cbn [negb trace app];
      eexists; (split; [reflexivity|]); intros Hq;
      try discriminate; eexists; reflexivity.
  - apply Hpipe. lia.
  - intros Hout. rewrite do_consume_unfold. cbn zeta.
    assert ((0 <? count) && (count <=? 65535) = false) as ->.
    { destruct (Z.ltb_spec 0 count), (Z.leb_spec count 65535);
        try reflexivity; lia. }
    cbn [andb app].
    pose proof (consume_loop_without is_qos no_ack count argv (arrivals b)
                  eq_refl (iteration_without_qos no_ack argv) 0) as Hnone.
    destruct (consume_ok b); cbn [trace]; [|reflexivity].
    unfold count_ev in *. cbn [List.filter is_qos]. exact Hnone.
  - apply runs_unbounded_negative.
  - intros H0. split; [|apply Hpipe, H0].
    apply do_consume_bounded; try reflexivity; [|lia].
    intros a. rewrite iteration_waits_once. lia.
Qed.

Lemma qos_and_loop_bound_witness :
  (exists t,
     trace (do_consume (healthy [delivery 1 0; delivery 2 0; delivery 3 0])
              [113] 0 2 cat)
     = ev_basic_qos 1 0 2 0 :: t) /\
  runs_unbounded 0 (-1) /\
  Z.of_nat (count_ev is_wait
              (trace (do_consume (healthy [heartbeat]) [113] 0 70000 cat)))
  <= 70000.
Proof.
  split; [|split].
  - destruct (qos_and_loop_bound
                (healthy [delivery 1 0; delivery 2 0; delivery 3 0])
                [113] 0 2 cat) as ((Hq & _) & _).
    + unfold int_range, INT_MIN, INT_MAX; lia.
    + lia.
    + destruct Hq as (t & Ht & _). exists t. exact Ht.
  - destruct (qos_and_loop_bound (healthy []) [] 0 (-1) cat) as (_ & _ & Hu & _).
    + unfold int_range, INT_MIN, INT_MAX; lia.
    + apply Hu. lia.
  - destruct (qos_and_loop_bound (healthy [heartbeat]) [113] 0 70000 cat)
      as (_ & _ & _ & Hb).
    + unfold int_range, INT_MIN, INT_MAX; lia.
    + apply Hb. lia.
Defined.

(** ** setup_queue *)

Lemma setup_queue_rejects b queue routing_key declare rk :
  routing_key = Some rk ->
  setup_queue b queue None routing_key declare
  = Run [ev_stderr routing_key_requires_exchange] (inr (Exit 1)).
Proof. intros ->. reflexivity. Qed.

Lemma setup_queue_declares b queue exchange routing_key declare :
  (exchange = None -> routing_key = None) ->
  is_null queue || negb (is_null exchange) || negb (declare =? 0) = true ->
  exists t,
    trace (setup_queue b queue exchange routing_key declare)
    = ev_queue_declare 1 (cstring_bytes queue) 0 0 1 1 :: t /\
    count_ev is_declare t = 0%nat.
Proof.
  intros Hrk Hcond. unfold setup_queue.
  assert (is_null exchange && negb (is_null routing_key) = false) as ->.
  { destruct exchange; [reflexivity|]. rewrite Hrk by reflexivity. reflexivity. }
  rewrite bind_unfold. cbn [result mret M_ret trace app]. rewrite Hcond.
  unfold die_rpc.
  destruct (declare_reply b) as [res_queue|]; [|eexists; split; reflexivity].
  destruct queue as [q|]; cbn [is_null];
    [|destruct (stringify_bytes res_queue ≫= c_str)];
    destruct exchange as [e|]; try destruct (bind_ok b);
    eexists; split; reflexivity.
Qed.

Lemma setup_queue_plain b queue exchange routing_key declare :
  (exchange = None -> routing_key = None) ->
  is_null queue || negb (is_null exchange) || negb (declare =? 0) = false ->
  setup_queue b queue exchange routing_key declare = mret (cstring_bytes queue).
Proof.
  intros Hrk Hcond. unfold setup_queue.
  assert (is_null exchange && negb (is_null routing_key) = false) as ->.
  { destruct exchange; [reflexivity|]. rewrite Hrk by reflexivity. reflexivity. }
  rewrite bind_unfold. cbn [result mret M_ret trace app]. rewrite Hcond.
  reflexivity.
Qed.

Lemma declare_test_spec (queue exchange : option string) (declare : Z) :
  is_null queue || negb (is_null exchange) || negb (declare =? 0) = true
  <-> queue = None \/ exchange <> None \/ declare <> 0.
Proof.
  destruct queue, exchange, (Z.eqb_spec declare 0); cbn; intuition congruence.
Qed.

Lemma setup_queue_without_dispatch b queue exchange routing_key declare :
  Forall (fun e => is_dispatch e = false)
    (trace (setup_queue b queue exchange routing_key declare)).
Proof.
  unfold setup_queue, die_rpc.
  destruct exchange, routing_key, queue, (declare =? 0), (declare_reply b);
    cbn; repeat constructor;
    try destruct (bind_ok b); cbn; repeat constructor;
    destruct (stringify_bytes _ ≫= c_str); cbn; repeat constructor;
    destruct (bind_ok b); cbn; repeat constructor.
Qed.

(** C7 fails when the routing key check stops the process: no queue name
    was given, and yet no queue.declare is issued. *)
Lemma no_declare_when_routing_key_rejected :
  ~ (Exists (fun e => is_declare e = true)
       (trace (setup_queue (healthy []) None None (Some "rk"%string) 0))
     <-> (@None string = None \/ @None string <> None \/ 0 <> 0)).
Proof.
  intros [_ H]. specialize (H (or_introl eq_refl)).
  rewrite (setup_queue_rejects _ _ _ _ "rk"%string eq_refl) in H.
  inversion H as [? ? He|? ? He]; [discriminate He | inversion He].
Qed.

(** C7, as far as it holds.  When [setup_queue] gets past the routing key
    check, it issues a queue.declare iff no queue name was given, or an
    exchange was given, or the declare flag is set; the declare is the
    first request, there is one of it, and it asks for a non-passive,
    non-durable, exclusive, auto-delete queue; otherwise the named queue is
    returned with no call at all. *)
Theorem queue_declare_condition
    (b : broker) (queue exchange routing_key : option string) (declare : Z) :
  (exchange = None -> routing_key = None) ->
  let run := setup_queue b queue exchange routing_key declare in
  (Exists (fun e => is_declare e = true) (trace run)
   <-> queue = None \/ exchange <> None \/ declare <> 0) /\
  (forall e, In e (trace run) -> is_declare e = true ->
     e = ev_queue_declare 1 (cstring_bytes queue) 0 0 1 1) /\
  (count_ev is_declare (trace run) <= 1)%nat /\
  (~ (queue = None \/ exchange <> None \/ declare <> 0) ->
     run = mret (cstring_bytes queue)).
Proof.
  intros Hrk run. subst run. rewrite <- declare_test_spec.
  destruct (is_null queue || negb (is_null exchange) || negb (declare =? 0))
    eqn:Hcond.
  - destruct (setup_queue_declares b queue exchange routing_key declare Hrk Hcond)
      as (t & -> & Hnone).
    pose proof (proj1 (count_ev_zero_Forall _ _) Hnone) as Hall.
    split; [|split; [|split]].
    + split; [reflexivity|]. intros _. left. reflexivity.
    + intros e [<-|Hin] He; [reflexivity|].
      rewrite List.Forall_forall in Hall. specialize (Hall e Hin). congruence.
    + unfold count_ev in *. cbn [List.filter is_declare length]. lia.
    + intros H. contradiction H. reflexivity.
  - rewrite (setup_queue_plain b queue exchange routing_key declare Hrk Hcond).
    split; [|split; [|split]].
    + split; [|discriminate]. intros H. inversion H.
    + intros e [].
    + cbn. lia.
    + reflexivity.
Qed.

Lemma queue_declare_condition_witness :
  Exists (fun e => is_declare e = true)
    (trace (setup_queue (healthy []) (Some "orders"%string) (Some "ex1"%string)
              (Some "rk1"%string) 0)).
Proof.
  destruct (queue_declare_condition (healthy []) (Some "orders"%string)
              (Some "ex1"%string) (Some "rk1"%string) 0) as ((_ & H) & _).
  - discriminate.
  - apply H. right. left. discriminate.
Defined.

(** ** main *)

Lemma main_with_command o b c cmd :
  opt_args o = Some (c :: cmd) ->
  main o b
  = (make_connection b ;;
     queue_bytes ← setup_queue b (opt_queue o) (opt_exchange o)
                     (opt_routing_key o) (opt_declare o);
     do_consume b queue_bytes (opt_no_ack o) (opt_count o) (c :: cmd) ;;
     close_connection b ;;
     mret 0).
Proof. intros H. unfold main. rewrite H. reflexivity. Qed.

Lemma do_consume_zero b queue no_ack argv :
  do_consume b queue no_ack 0 argv
  = Run (ev_basic_consume 1 queue amqp_empty_bytes 0 no_ack 0
         :: (if consume_ok b then [] else [ev_die "basic.consume"]))
        (if consume_ok b then inl tt else inr (Exit 1)).
Proof.
  rewrite do_consume_unfold. cbn zeta. cbn [Z.ltb Z.compare andb app].
  rewrite consume_loop_leave by lia. destruct (consume_ok b); reflexivity.
Qed.

(** C4 fails: [main] calls [make_connection] before [setup_queue] looks at
    the routing key, so the broker has been contacted when the process
    exits. *)
Lemma routing_key_check_follows_connection :
  main routing_key_only (healthy [])
  = Run [ev_make_connection; ev_stderr routing_key_requires_exchange]
        (inr (Exit 1)) /\
  ~ Forall (fun e => contacts_broker e = false)
      (trace (main routing_key_only (healthy []))).
Proof.
  split; [reflexivity|].
  intros H. inversion_clear H as [|? ? He _]. discriminate He.
Qed.

(** C4, as far as it holds.  With a routing key and no exchange,
    [setup_queue] reports the error and exits with status 1 before it
    issues any request; [main] has called [make_connection] by then, and
    exits with status 1 whether or not the connection could be made. *)
Theorem routing_key_without_exchange_exits
    (o : options) (b : broker) (c : string) (cmd : list string) (rk : string) :
  opt_args o = Some (c :: cmd) ->
  opt_routing_key o = Some rk ->
  opt_exchange o = None ->
  setup_queue b (opt_queue o) (opt_exchange o) (opt_routing_key o) (opt_declare o)
  = Run [ev_stderr routing_key_requires_exchange] (inr (Exit 1)) /\
  main o b
  = Run (ev_make_connection
         :: (if connect_ok b then [ev_stderr routing_key_requires_exchange]
             else [ev_die "opening connection"]))
        (inr (Exit 1)) /\
  exit_status (main o b) = Some 1.
Proof.
  intros Hargs Hrk Hex.
  assert (Hmain : main o b
    = Run (ev_make_connection
           :: (if connect_ok b then [ev_stderr routing_key_requires_exchange]
               else [ev_die "opening connection"]))
          (inr (Exit 1))).
  { rewrite (main_with_command o b c cmd Hargs). rewrite Hex.
    rewrite (setup_queue_rejects b _ _ _ rk Hrk).
    unfold make_connection, die_rpc. destruct (connect_ok b); reflexivity. }
  split; [|split].
  - rewrite Hex. apply (setup_queue_rejects b _ _ _ rk Hrk).
  - exact Hmain.
  - rewrite Hmain. reflexivity.
Qed.

Lemma routing_key_without_exchange_exits_witness :
  exit_status (main routing_key_only (healthy [])) = Some 1.
Proof.
  destruct (routing_key_without_exchange_exits routing_key_only (healthy [])
              "cat"%string [] "rk"%string) as (_ & _ & H).
  - reflexivity.
  - reflexivity.
  - reflexivity.
  - exact H.
Defined.

(** C9. With [count = 0] no call of the dispatch loop is made in any run:
    no QoS, no wait for a frame, no pipeline, no acknowledgment.  When the
    broker grants the requests, the basic.consume request is issued all the
    same and the process exits with status 0. *)
Theorem count_zero_run (o : options) (b : broker) :
  opt_count o = 0 ->
  Forall (fun e => is_dispatch e = false) (trace (main o b)) /\
  (forall c cmd queue_bytes,
     opt_args o = Some (c :: cmd) ->
     connect_ok b = true ->
     result (setup_queue b (opt_queue o) (opt_exchange o) (opt_routing_key o)
               (opt_declare o)) = inl queue_bytes ->
     consume_ok b = true ->
     close_ok b = true ->
     trace (main o b)
     = ev_make_connection
       :: trace (setup_queue b (opt_queue o) (opt_exchange o)
                   (opt_routing_key o) (opt_declare o))
       ++ [ev_basic_consume 1 queue_bytes amqp_empty_bytes 0 (opt_no_ack o) 0;
           ev_close_connection] /\
     exit_status (main o b) = Some 0).
Proof.
  intros Hcount. split.
  - pose proof (setup_queue_without_dispatch b (opt_queue o) (opt_exchange o)
                  (opt_routing_key o) (opt_declare o)) as Hsetup.
    unfold main. destruct (opt_args o) as [[|c cmd]|];
      try (cbn; repeat constructor).
    rewrite Hcount. unfold make_connection, close_connection, die_rpc.
    destruct (connect_ok b); [|cbn; repeat constructor].
    rewrite !bind_unfold. cbn [call result trace mret M_ret app].
    destruct (result (setup_queue _ _ _ _ _)) as [qb|h]; cbn [trace result].
    + rewrite do_consume_zero.
      destruct (consume_ok b), (close_ok b); cbn [trace result app];
        constructor; try reflexivity; apply Forall_app; split;
        try exact Hsetup; repeat constructor.
    + constructor; [reflexivity | exact Hsetup].
  - intros c cmd qb Hargs Hconn Hsetup Hcons Hclose.
    rewrite (main_with_command o b c cmd Hargs), Hcount.
    unfold make_connection, close_connection, exit_status.
    rewrite Hconn, Hclose, !bind_unfold.
    cbn [call result trace mret M_ret app]. rewrite Hsetup.
    cbn [trace result]. rewrite do_consume_zero, Hcons.
    cbn [trace result app]. split; reflexivity.
Qed.

Lemma count_zero_run_witness :
  exit_status (main (Options (Some "orders"%string) None None 0 0 0 (Some cat))
                 (healthy [delivery 1 0]))
  = Some 0.
Proof.
  destruct (count_zero_run
              (Options (Some "orders"%string) None None 0 0 0 (Some cat))
              (healthy [delivery 1 0])) as (_ & H).
  - reflexivity.
  - destruct (H "cat"%string [] (bytes_of_string "orders")) as (_ & He).
    + reflexivity.
    + reflexivity.
    + reflexivity.
    + reflexivity.
    + reflexivity.
    + exact He.
Defined.

(** ** Further properties of stringify_bytes *)

Lemma renderable_app a b : renderable (a ++ b) -> renderable a /\ renderable b.
Proof.
  unfold renderable, bytes_len. rewrite length_app, Forall_app.
  intros [[Ha Hb] Hsz]. repeat split; try assumption; lia.
Qed.

Lemma literal_printable d : uint8_t d -> literal d = true -> printable d.
Proof. unfold uint8_t, literal, printable. lia. Qed.

Lemma escape_byte_printable d : uint8_t d -> Forall printable (escape_byte d).
Proof.
  intros Hd. destruct (octal_split d Hd) as (H1 & H2 & H3 & _).
  unfold escape_byte. destruct (literal d) eqn:E.
  - repeat constructor; apply (literal_printable d Hd E).
  - repeat constructor; unfold printable; lia.
Qed.

(** X1. The rendering of a concatenation is the concatenation of the
    renderings: each byte is rendered independently of its neighbours. *)
Theorem stringify_bytes_concatenation (a b : amqp_bytes_t) :
  renderable (a ++ b) ->
  exists sa sb,
    stringify_string a = Some sa /\
    stringify_string b = Some sb /\
    stringify_string (a ++ b) = Some (sa ++ sb).
Proof.
  intros Hab. destruct (renderable_app a b Hab) as [[Ha Hsa] [Hb Hsb]].
  destruct Hab as [Hd Hsz].
  exists (escaped a), (escaped b).
  rewrite !stringify_string_escaped by assumption.
  rewrite escaped_app. repeat split.
Qed.

Lemma stringify_bytes_concatenation_witness :
  stringify_string ([7; 65] ++ [66; 127])
  = Some ([92; 48; 48; 55; 65] ++ [66; 92; 49; 55; 55]).
Proof.
  destruct (stringify_bytes_concatenation [7; 65] [66; 127])
    as (sa & sb & Ha & Hb & Hab).
  - split; [repeat constructor; unfold uint8_t; lia|].
    unfold bytes_len, SIZE_MAX; simpl; lia.
  - vm_compute in Ha. vm_compute in Hb.
    injection Ha as <-. injection Hb as <-. exact Hab.
Defined.

(** X2. The rendering is the input itself exactly when no byte of the
    input is a control character or DEL. *)
Theorem stringify_bytes_identity_iff_printable (data : amqp_bytes_t) :
  renderable data ->
  stringify_string data = Some data <-> Forall (fun d => 32 <= d /\ d <> 127) data.
Proof.
  intros [Hd Hsz]. rewrite stringify_string_escaped by assumption.
  clear Hsz. induction Hd as [|d data Hd1 _ IH].
  - split; [constructor | reflexivity].
  - rewrite escaped_cons. unfold escape_byte, literal.
    destruct (Z.leb_spec 32 d) as [H32|H32];
      [destruct (Z.eqb_spec d 127) as [H127|H127]|]; cbn [andb negb app].
    + split; [|intros H; inversion_clear H; lia].
      intros H. injection H as H. lia.
    + split.
      * intros H. injection H as H. constructor; [lia|].
        apply IH. rewrite H. reflexivity.
      * intros H. inversion_clear H as [|? ? _ Hrest].
        apply IH in Hrest. injection Hrest as ->. reflexivity.
    + split; [|intros H; inversion_clear H; lia].
      intros H. injection H as H. lia.
Qed.

Lemma stringify_bytes_identity_iff_printable_witness :
  stringify_string [97; 109; 113; 46; 200] = Some [97; 109; 113; 46; 200].
Proof.
  apply stringify_bytes_identity_iff_printable.
  - split; [repeat constructor; unfold uint8_t; lia|].
    unfold bytes_len, SIZE_MAX; simpl; lia.
  - repeat constructor; lia.
Defined.

(** X3. The rendering never contains a control character, DEL or an
    embedded NUL, and it is at least as long as the input. *)
Theorem stringify_bytes_output_printable (data : amqp_bytes_t) :
  renderable data ->
  exists s,
    stringify_string data = Some s /\
    Forall printable s /\
    (length data <= length s)%nat.
Proof.
  intros [Hd Hsz]. exists (escaped data).
  split; [apply stringify_string_escaped; assumption|].
  clear Hsz. induction Hd as [|d data Hd1 _ [IH1 IH2]].
  - split; [constructor | reflexivity].
  - rewrite escaped_cons. split.
    + apply Forall_app. split; [apply escape_byte_printable, Hd1 | exact IH1].
    + rewrite length_app, escape_byte_length. cbn [length].
      destruct (literal d); lia.
Qed.

Lemma stringify_bytes_output_printable_witness :
  exists s, stringify_string [0; 10; 27; 127; 255] = Some s /\ Forall printable s.
Proof.
  destruct (stringify_bytes_output_printable [0; 10; 27; 127; 255])
    as (s & Hs & Hp & _).
  - split; [repeat constructor; unfold uint8_t; lia|].
    unfold bytes_len, SIZE_MAX; simpl; lia.
  - exists s. split; assumption.
Defined.



(** ** Further properties of setup_queue *)

Lemma renderable_stringify rq :
  renderable rq -> stringify_bytes rq ≫= c_str = Some (escaped rq).
Proof. intros [Hd Hsz]. apply (stringify_string_escaped rq Hd Hsz). Qed.

(** X5. The queue that [setup_queue] returns is the one named on the
    command line whenever a name was given, whatever name the declare-ok of
    the broker carries; only without a name is it the name the broker
    provided. *)
Theorem setup_queue_returns_queue_name
    (b : broker) (queue exchange routing_key : option string) (declare : Z)
    (queue_bytes : amqp_bytes_t) :
  result (setup_queue b queue exchange routing_key declare) = inl queue_bytes ->
  match queue with
  | Some name => queue_bytes = amqp_cstring_bytes name
  | None => declare_reply b = Some queue_bytes
  end.
Proof.
  unfold setup_queue, die_rpc.
  destruct exchange, routing_key, queue, (declare =? 0),
    (declare_reply b) as [rq|]; cbn;
    try destruct (bind_ok b); cbn; try congruence;
    destruct (stringify_bytes rq ≫= c_str); cbn;
    try destruct (bind_ok b); cbn; congruence.
Qed.

Lemma setup_queue_returns_queue_name_witness :
  declare_reply (healthy []) = Some (bytes_of_string "amq.gen").
Proof.
  exact (setup_queue_returns_queue_name (healthy []) None (Some "ex"%string)
           None 0 (bytes_of_string "amq.gen") eq_refl).
Defined.

(** X6. A queue.bind is issued only when an exchange was given.  When
    [setup_queue] returns with an exchange, the bind is its last call and
    the only one: on channel 1, of the queue it returns, to that exchange,
    with the routing key given or else the empty one. *)
Theorem setup_queue_binds_returned_queue
    (b : broker) (queue exchange routing_key : option string) (declare : Z) :
  let run := setup_queue b queue exchange routing_key declare in
  (exchange = None -> count_ev is_bind (trace run) = 0%nat) /\
  (forall e queue_bytes,
     exchange = Some e ->
     result run = inl queue_bytes ->
     exists t,
       trace run
       = t ++ [ev_queue_bind 1 queue_bytes (amqp_cstring_bytes e)
                 (cstring_bytes routing_key)] /\
       count_ev is_bind t = 0%nat).
Proof.
  intros run. subst run. split.
  - intros ->. unfold setup_queue, die_rpc.
    destruct routing_key, queue, (declare =? 0), (declare_reply b) as [rq|];
      cbn; try reflexivity;
      destruct (stringify_bytes rq ≫= c_str); reflexivity.
  - intros e qb -> Hres. revert Hres. unfold setup_queue, die_rpc.
    destruct routing_key, queue, (declare =? 0), (declare_reply b) as [rq|];
      cbn; try destruct (bind_ok b); cbn; try discriminate;
      try (destruct (stringify_bytes rq ≫= c_str); cbn;
           try destruct (bind_ok b); cbn; try discriminate);
      intros [= <-];
      match goal with
      | |- exists t, ?x :: ?y :: [?z] = _ /\ _ => exists [x; y]
      | |- exists t, ?x :: [?z] = _ /\ _ => exists [x]
      end; split; reflexivity.
Qed.

Lemma setup_queue_binds_returned_queue_witness :
  exists t,
    trace (setup_queue (healthy []) (Some "orders"%string) (Some "ex1"%string)
             (Some "rk1"%string) 0)
    = t ++ [ev_queue_bind 1 (bytes_of_string "orders") (bytes_of_string "ex1")
              (bytes_of_string "rk1")].
Proof.
  destruct (setup_queue_binds_returned_queue (healthy []) (Some "orders"%string)
              (Some "ex1"%string) (Some "rk1"%string) 0) as [_ H].
  destruct (H "ex1"%string (bytes_of_string "orders") eq_refl eq_refl)
    as (t & Ht & _).
  exists t. exact Ht.
Defined.

(** X7. When the broker does not grant the queue.declare, [setup_queue]
    reports "queue.declare" and exits with status 1 straight away: no name
    is printed and no bind is attempted. *)
Theorem setup_queue_declare_refused
    (b : broker) (queue exchange routing_key : option string) (declare : Z) :
  (exchange = None -> routing_key = None) ->
  queue = None \/ exchange <> None \/ declare <> 0 ->
  declare_reply b = None ->
  setup_queue b queue exchange routing_key declare
  = Run [ev_queue_declare 1 (cstring_bytes queue) 0 0 1 1; ev_die "queue.declare"]
        (inr (Exit 1)).
Proof.
  intros Hrk Hcond Hreply. apply declare_test_spec in Hcond.
  unfold setup_queue, die_rpc.
  assert (is_null exchange && negb (is_null routing_key) = false) as ->.
  { destruct exchange; [reflexivity|]. rewrite Hrk by reflexivity. reflexivity. }
  rewrite bind_unfold. cbn [result mret M_ret trace app]. rewrite Hcond, Hreply.
  reflexivity.
Qed.

Lemma setup_queue_declare_refused_witness :
  exit_status
    (_ ← setup_queue (Broker true None true true true true []) None
           (Some "ex"%string) (Some "rk"%string) 0; mret 0)
  = Some 1.
Proof.
  rewrite (setup_queue_declare_refused (Broker true None true true true true [])
             None (Some "ex"%string) (Some "rk"%string) 0).
  - reflexivity.
  - discriminate.
  - left. reflexivity.
  - reflexivity.
Defined.

Lemma name_report_line name : is_name_report (ev_stderr (server_name_line name)) = true.
Proof. reflexivity. Qed.

(** X8. When no queue name was given, the routing key check passes and
    the broker grants the declare with a name that fits the buffer
    arithmetic, [setup_queue] prints the line "Server provided queue name: "
    with the escaped name on stderr right after the declare, once, and,
    unless a bind is refused, returns the raw name.  When a queue was named
    on the command line it prints no such line in any run. *)
Theorem setup_queue_prints_server_name
    (b : broker) (queue exchange routing_key : option string) (declare : Z) :
  let run := setup_queue b queue exchange routing_key declare in
  (forall res_queue,
     queue = None ->
     (exchange = None -> routing_key = None) ->
     declare_reply b = Some res_queue ->
     renderable res_queue ->
     exists t,
       trace run
       = ev_queue_declare 1 amqp_empty_bytes 0 0 1 1
         :: ev_stderr (server_name_line (escaped res_queue)) :: t /\
       count_ev is_name_report t = 0%nat /\
       (exchange = None \/ bind_ok b = true -> result run = inl res_queue)) /\
  (queue <> None -> count_ev is_name_report (trace run) = 0%nat).
Proof.
  intros run. subst run. split.
  - intros rq -> Hrk Hreply Hrq. unfold setup_queue, die_rpc.
    assert (is_null exchange && negb (is_null routing_key) = false) as ->.
    { destruct exchange; [reflexivity|]. rewrite Hrk by reflexivity. reflexivity. }
    rewrite bind_unfold. cbn [result mret M_ret trace app]. rewrite Hreply.
    cbn [is_null orb]. rewrite (renderable_stringify _ Hrq).
    destruct exchange; [destruct (bind_ok b)|]; cbn;
      eexists; repeat split; try reflexivity; intros [?|?]; discriminate.
  - intros Hq. destruct queue as [q|]; [|contradiction].
    unfold setup_queue, die_rpc.
    destruct exchange, routing_key, (declare =? 0), (declare_reply b); cbn;
      try destruct (bind_ok b); reflexivity.
Qed.

Lemma setup_queue_prints_server_name_witness :
  exists t,
    trace (setup_queue (Broker true (Some [97; 7; 98]) true true true true [])
             None None None 0)
    = ev_queue_declare 1 [] 0 0 1 1
      :: ev_stderr "Server provided queue name: a\007b
" :: t.
Proof.
  destruct (setup_queue_prints_server_name
              (Broker true (Some [97; 7; 98]) true true true true [])
              None None None 0) as [H _].
  destruct (H [97; 7; 98]) as (t & Ht & _).
  - reflexivity.
  - reflexivity.
  - reflexivity.
  - split; [repeat constructor; unfold uint8_t; lia|].
    unfold bytes_len, SIZE_MAX; simpl; lia.
  - exists t. exact Ht.
Defined.

(** X9. [setup_queue] either returns a queue or exits with status 1: it
    never waits and, the name in a declare-ok being a byte string that
    fits the buffer arithmetic, the rendering of it never faults. *)
Theorem setup_queue_returns_or_exits
    (b : broker) (queue exchange routing_key : option string) (declare : Z) :
  (forall res_queue, declare_reply b = Some res_queue -> renderable res_queue) ->
  let run := setup_queue b queue exchange routing_key declare in
  (exists queue_bytes, result run = inl queue_bytes) \/
  result run = inr (Exit 1).
Proof.
  intros Hrq run. subst run. unfold setup_queue, die_rpc.
  destruct (declare_reply b) as [rq|] eqn:Hreply.
  - rewrite (renderable_stringify rq (Hrq rq eq_refl)).
    destruct exchange, routing_key, queue, (declare =? 0); cbn;
      try destruct (bind_ok b); cbn; eauto.
  - destruct exchange, routing_key, queue, (declare =? 0); cbn; eauto.
Qed.

Lemma setup_queue_returns_or_exits_witness :
  (exists queue_bytes,
     result (setup_queue (healthy []) None None None 0) = inl queue_bytes) \/
  result (setup_queue (healthy []) None None None 0) = inr (Exit 1).
Proof.
  apply setup_queue_returns_or_exits.
  intros rq [= <-]. split; [repeat constructor; unfold uint8_t; lia|].
  unfold bytes_len, SIZE_MAX; simpl; lia.
Defined.

(** ** Further properties of the loop *)

Lemma harmless_cases a :
  harmless a = true ->
  0 <= wait_res a /\
  (is_delivery (frame a) = false \/
   exists ch d,
     frame a = frame_method ch AMQP_BASIC_DELIVER_METHOD (decoded_basic_deliver d) /\
     spawn_ok a = true /\ copy_ok a = true /\ 0 <= ack_res a).
Proof.
  unfold harmless. intros H.
  destruct (Z.leb_spec 0 (wait_res a)); [|discriminate]. split; [assumption|].
  destruct (is_delivery (frame a)) eqn:Hdel; [right | left; reflexivity].
  cbn [negb orb andb] in H. unfold is_delivery in Hdel.
  destruct (frame a) as [ch id [d|]| | |]; try discriminate.
  cbn [frame_type method_id] in Hdel.
  destruct (Z.eqb_spec id AMQP_BASIC_DELIVER_METHOD) as [->|];
    [|rewrite andb_false_r in Hdel; discriminate].
  cbn [method_decoded is_null negb andb] in H.
  destruct (spawn_ok a), (copy_ok a); try discriminate.
  exists ch, d. repeat split. cbn [andb] in H. lia.
Qed.

Lemma is_delivery_deliver ch decoded :
  is_delivery (frame_method ch AMQP_BASIC_DELIVER_METHOD decoded) = true.
Proof. reflexivity. Qed.

Lemma consume_loop_harmless_unlimited no_ack count argv ins :
  count < 0 ->
  Forall (fun a => harmless a = true) ins ->
  forall i,
    consume_loop no_ack count argv i ins
    = Run (flat_map (fun a => trace (iteration no_ack argv a)) ins
           ++ [ev_simple_wait_frame])
          (inr Block).
Proof.
  intros Hc. induction 1 as [|a rest Ha _ IH]; intros i.
  - cbn [consume_loop]. destruct (Z.ltb_spec count 0); [|lia]. reflexivity.
  - rewrite consume_loop_enter by (left; exact Hc).
    rewrite bind_unfold, (iteration_harmless no_ack argv a Ha), IH.
    cbn [trace result flat_map]. rewrite app_assoc. reflexivity.
Qed.

Lemma consume_loop_harmless_limited no_ack count argv ins :
  0 <= count <= INT_MAX ->
  Forall (fun a => harmless a = true) ins ->
  forall i, 0 <= i <= count ->
    consume_loop no_ack count argv i ins
    = if Z.of_nat (length ins) <? count - i
      then Run (flat_map (fun a => trace (iteration no_ack argv a)) ins
                ++ [ev_simple_wait_frame])
               (inr Block)
      else Run (flat_map (fun a => trace (iteration no_ack argv a))
                  (take (Z.to_nat (count - i)) ins))
               (inl tt).
Proof.
  intros Hc. induction 1 as [|a rest Ha _ IH]; intros i Hi.
  - cbn [length]. destruct (Z.ltb_spec (Z.of_nat 0) (count - i)).
    + cbn [consume_loop].
      destruct (Z.ltb_spec count 0), (Z.ltb_spec i count); try lia; reflexivity.
    + rewrite consume_loop_leave by lia. rewrite take_nil. reflexivity.
  - destruct (Z.lt_ge_cases i count) as [Hlt|Hge].
    + rewrite consume_loop_enter by (right; exact Hlt).
      rewrite int_wrap_succ by (unfold INT_MIN, INT_MAX in *; lia).
      rewrite bind_unfold, (iteration_harmless no_ack argv a Ha).
      rewrite IH by lia. cbn [length].
      replace (Z.to_nat (count - i)) with (S (Z.to_nat (count - (i + 1)))) by lia.
      destruct (Z.ltb_spec (Z.of_nat (length rest)) (count - (i + 1))),
        (Z.ltb_spec (Z.of_nat (S (length rest))) (count - i)); try lia;
        cbn [trace result flat_map take]; rewrite ?app_assoc; reflexivity.
    + rewrite consume_loop_leave by lia.
      destruct (Z.ltb_spec (Z.of_nat (length (a :: rest))) (count - i)); [lia|].
      replace (Z.to_nat (count - i)) with 0%nat by lia. reflexivity.
Qed.

Lemma consume_loop_harmless no_ack count argv ins :
  int_range count ->
  Forall (fun a => harmless a = true) ins ->
  consume_loop no_ack count argv 0 ins
  = Run (flat_map (fun a => trace (iteration no_ack argv a)) (frames_read count ins)
         ++ (if (count <? 0) || (Z.of_nat (length ins) <? count)
             then [ev_simple_wait_frame] else []))
        (if (count <? 0) || (Z.of_nat (length ins) <? count)
         then inr Block else inl tt).
Proof.
  intros [Hlo Hhi] Hins. unfold frames_read.
  destruct (Z.ltb_spec count 0) as [Hneg|Hpos]; cbn [orb].
  - apply consume_loop_harmless_unlimited; assumption.
  - rewrite (consume_loop_harmless_limited no_ack count argv ins) by
      (assumption || lia).
    rewrite Z.sub_0_r.
    destruct (Z.ltb_spec (Z.of_nat (length ins)) count).
    + rewrite take_ge by lia. reflexivity.
    + rewrite app_nil_r. reflexivity.
Qed.

Lemma frames_read_harmless count ins :
  Forall (fun a => harmless a = true) ins ->
  Forall (fun a => harmless a = true) (frames_read count ins).
Proof.
  intros Hins. unfold frames_read. destruct (count <? 0); [assumption|].
  apply Forall_take, Hins.
Qed.

(** X10. While no frame is fatal, a run of the loop is its iterations one
    after the other over the frames read: all that arrive when there is no
    limit, the loop then waiting for more; the first [count] otherwise,
    the loop then returning without touching the rest. *)
Theorem consume_loop_is_sequence_of_iterations
    (no_ack count : Z) (argv : list string) (ins : list arrival) :
  int_range count ->
  Forall (fun a => harmless a = true) ins ->
  let starved := (count <? 0) || (Z.of_nat (length ins) <? count) in
  consume_loop no_ack count argv 0 ins
  = Run (flat_map (fun a => trace (iteration no_ack argv a)) (frames_read count ins)
         ++ (if starved then [ev_simple_wait_frame] else []))
        (if starved then inr Block else inl tt).
Proof. intros Hc Hins starved. apply consume_loop_harmless; assumption. Qed.

Lemma consume_loop_is_sequence_of_iterations_witness :
  consume_loop 0 1 cat 0 [delivery 5 0; delivery 6 0]
  = Run [ev_simple_wait_frame; ev_pipeline cat; ev_copy_body [104; 105];
         ev_finish_pipeline; ev_basic_ack 1 5 0; ev_maybe_release_buffers]
        (inl tt).
Proof.
  rewrite consume_loop_is_sequence_of_iterations.
  - reflexivity.
  - unfold int_range, INT_MIN, INT_MAX; lia.
  - repeat constructor.
Defined.

Lemma iteration_harmless_pipelines no_ack argv a :
  harmless a = true ->
  count_ev is_pipeline (trace (iteration no_ack argv a))
  = if is_delivery (frame a) then 1%nat else 0%nat.
Proof.
  intros Ha. destruct (harmless_cases a Ha) as [Hw [Hd|(ch & d & Hf & Hs & Hc & Hack)]].
  - rewrite iteration_discards, Hd by assumption. reflexivity.
  - rewrite (iteration_dispatches no_ack argv a ch d Hw Hf Hs Hc), Hf.
    rewrite is_delivery_deliver. cbn [trace].
    destruct (pipeline_success a && (no_ack =? 0)), (ack_res a <? 0); reflexivity.
Qed.

Lemma iteration_harmless_ack_tags no_ack argv a :
  harmless a = true ->
  ack_tags (trace (iteration no_ack argv a))
  = if pipeline_success a && (no_ack =? 0) then arrival_tag a else [].
Proof.
  intros Ha. destruct (harmless_cases a Ha) as [Hw [Hd|(ch & d & Hf & Hs & Hc & Hack)]].
  - rewrite iteration_discards by assumption. unfold arrival_tag. rewrite Hd.
    destruct (pipeline_success a && (no_ack =? 0)); reflexivity.
  - rewrite (iteration_dispatches no_ack argv a ch d Hw Hf Hs Hc).
    unfold arrival_tag. rewrite Hf, is_delivery_deliver.
    cbn [method_decoded trace].
    destruct (Z.ltb_spec (ack_res a) 0); [lia|].
    destruct (pipeline_success a && (no_ack =? 0)); reflexivity.
Qed.

Lemma count_ev_flat_map {A} f (g : A -> list event) (l : list A) :
  count_ev f (flat_map g l)
  = list_sum (map (fun a => count_ev f (g a)) l).
Proof.
  induction l as [|a l IH]; [reflexivity|].
  cbn [flat_map map list_sum]. rewrite count_ev_app, IH. reflexivity.
Qed.

Lemma ack_tags_app t1 t2 : ack_tags (t1 ++ t2) = ack_tags t1 ++ ack_tags t2.
Proof. unfold ack_tags. apply flat_map_app. Qed.

(** X11. While no frame is fatal, as many pipelines are spawned as there
    are basic.deliver method frames among the frames read; with a limit
    these are the first [count] frames, so every frame of another kind
    among them takes the place of a delivery. *)
Theorem pipelines_spawned_for_deliveries_read
    (no_ack count : Z) (argv : list string) (ins : list arrival) :
  int_range count ->
  Forall (fun a => harmless a = true) ins ->
  count_ev is_pipeline (trace (consume_loop no_ack count argv 0 ins))
  = length (List.filter (fun a => is_delivery (frame a)) (frames_read count ins)).
Proof.
  intros Hc Hins.
  rewrite (consume_loop_harmless no_ack count argv ins Hc Hins).
  cbn [trace]. rewrite count_ev_app.
  pose proof (frames_read_harmless count ins Hins) as Hread.
  replace (count_ev is_pipeline
             (if (count <? 0) || (Z.of_nat (length ins) <? count)
              then [ev_simple_wait_frame] else [])) with 0%nat
    by (destruct ((count <? 0) || (Z.of_nat (length ins) <? count)); reflexivity).
  rewrite Nat.add_0_r.
  induction Hread as [|a rest Ha _ IH]; [reflexivity|].
  cbn [flat_map List.filter]. rewrite count_ev_app, IH.
  rewrite (iteration_harmless_pipelines no_ack argv a Ha).
  destruct (is_delivery (frame a)); reflexivity.
Qed.

Lemma pipelines_spawned_for_deliveries_read_witness :
  count_ev is_pipeline
    (trace (consume_loop 0 2 cat 0 [heartbeat; delivery 7 0; delivery 8 0]))
  = 1%nat.
Proof.
  rewrite pipelines_spawned_for_deliveries_read.
  - reflexivity.
  - unfold int_range, INT_MIN, INT_MAX; lia.
  - repeat constructor.
Defined.

(** X12. While no frame is fatal, the acknowledgments of a run are, in the
    order of arrival, the delivery tags of the deliveries read whose
    pipeline succeeded, each once, in ack mode; there is none in no-ack
    mode. *)
Theorem acks_are_successful_deliveries_in_order
    (no_ack count : Z) (argv : list string) (ins : list arrival) :
  int_range count ->
  Forall (fun a => harmless a = true) ins ->
  ack_tags (trace (consume_loop no_ack count argv 0 ins))
  = if no_ack =? 0
    then flat_map (fun a => if pipeline_success a then arrival_tag a else [])
           (frames_read count ins)
    else [].
Proof.
  intros Hc Hins.
  rewrite (consume_loop_harmless no_ack count argv ins Hc Hins).
  cbn [trace]. rewrite ack_tags_app.
  pose proof (frames_read_harmless count ins Hins) as Hread.
  replace (ack_tags
             (if (count <? 0) || (Z.of_nat (length ins) <? count)
              then [ev_simple_wait_frame] else [])) with (@nil Z)
    by (destruct ((count <? 0) || (Z.of_nat (length ins) <? count)); reflexivity).
  rewrite app_nil_r.
  induction Hread as [|a rest Ha _ IH].
  - destruct (no_ack =? 0); reflexivity.
  - cbn [flat_map]. rewrite ack_tags_app, IH.
    rewrite (iteration_harmless_ack_tags no_ack argv a Ha).
    destruct (no_ack =? 0); rewrite ?andb_true_r, ?andb_false_r; reflexivity.
Qed.

Lemma acks_are_successful_deliveries_in_order_witness :
  ack_tags
    (trace (consume_loop 0 (-1) cat 0
              [delivery 3 0; delivery 4 1; heartbeat; delivery 5 0]))
  = [3; 5].
Proof.
  rewrite acks_are_successful_deliveries_in_order.
  - reflexivity.
  - unfold int_range, INT_MIN, INT_MAX; lia.
  - repeat constructor.
Defined.

(** ** Runs with fatal steps *)

Lemma count_ev_bind {A B} f (m : M A) (k : A -> M B) :
  count_ev f (trace (m ≫= k))
  = (count_ev f (trace m)
     + match result m with
       | inl a => count_ev f (trace (k a))
       | inr _ => 0
       end)%nat.
Proof.
  rewrite bind_unfold. destruct (result m); cbn [trace].
  - apply count_ev_app.
  - lia.
Qed.

Lemma consume_loop_count_le f g no_ack count argv ins :
  (forall a, (count_ev f (trace (iteration no_ack argv a))
              <= count_ev g (trace (iteration no_ack argv a)))%nat) ->
  (count_ev f [ev_simple_wait_frame] <= count_ev g [ev_simple_wait_frame])%nat ->
  forall i,
    (count_ev f (trace (consume_loop no_ack count argv i ins))
     <= count_ev g (trace (consume_loop no_ack count argv i ins)))%nat.
Proof.
  intros Hit Hw. induction ins as [|a rest IH]; intros i; cbn [consume_loop];
    destruct ((count <? 0) || (i <? count)); try (cbn; lia).
  - exact Hw.
  - rewrite !count_ev_bind. specialize (Hit a).
    specialize (IH (int_wrap (i + 1))).
    destruct (result (iteration no_ack argv a)); lia.
Qed.

Lemma do_consume_count_loop f b queue no_ack count argv :
  f (ev_basic_qos 1 0 (to_uint16 count) 0) = false ->
  f (ev_basic_consume 1 queue amqp_empty_bytes 0 no_ack 0) = false ->
  f (ev_die "basic.qos") = false ->
  f (ev_die "basic.consume") = false ->
  count_ev f (trace (do_consume b queue no_ack count argv))
  = if ((0 <? count) && (count <=? 65535) && negb (qos_ok b))
       || negb (consume_ok b)
    then 0%nat
    else count_ev f (trace (consume_loop no_ack count argv 0 (arrivals b))).
Proof.
  intros H1 H2 H3 H4. rewrite do_consume_unfold. cbn zeta.
  destruct ((0 <? count) && (count <=? 65535)), (qos_ok b), (consume_ok b);
    cbn [andb negb orb trace app]; unfold count_ev; cbn [List.filter];
    rewrite ?H1, ?H2, ?H3, ?H4; reflexivity.
Qed.

(** X13. In no-ack mode no acknowledgment is ever sent, whatever the
    pipelines return and whatever the broker does. *)
Theorem no_ack_mode_never_acknowledges
    (b : broker) (queue : amqp_bytes_t) (no_ack count : Z) (argv : list string) :
  no_ack <> 0 ->
  count_ev is_ack (trace (do_consume b queue no_ack count argv)) = 0%nat.
Proof.
  intros Hno. rewrite do_consume_count_loop by reflexivity.
  destruct (_ || _); [reflexivity|].
  apply consume_loop_without; [reflexivity|].
  intros a. iteration_cases; try reflexivity; lia.
Qed.

Lemma no_ack_mode_never_acknowledges_witness :
  count_ev is_ack
    (trace (do_consume (healthy [delivery 1 0; delivery 2 0]) [113] 1 (-1) cat))
  = 0%nat.
Proof. apply no_ack_mode_never_acknowledges. lia. Defined.

(** X14. In every run, however it ends, no more acknowledgments are sent
    than pipelines were waited on, no more pipelines waited on than bodies
    copied, no more bodies copied than pipelines spawned, and no more
    pipelines spawned than frames waited for. *)
Theorem do_consume_call_counts
    (b : broker) (queue : amqp_bytes_t) (no_ack count : Z) (argv : list string) :
  let t := trace (do_consume b queue no_ack count argv) in
  (count_ev is_ack t <= count_ev is_finish t)%nat /\
  (count_ev is_finish t <= count_ev is_copy t)%nat /\
  (count_ev is_copy t <= count_ev is_pipeline t)%nat /\
  (count_ev is_pipeline t <= count_ev is_wait t)%nat.
Proof.
  intros t. subst t.
  rewrite !(do_consume_count_loop _ b queue no_ack count argv) by reflexivity.
  destruct (_ || _); [repeat split; lia|].
  repeat split; apply consume_loop_count_le;
    try (cbn; lia); intros a; iteration_cases; cbn; lia.
Qed.

(** X15. Without a limit the value of the loop counter is never looked
    at: the loop behaves the same from any counter value, so the overflow
    of [i++] in a long run changes nothing. *)
Theorem unlimited_loop_ignores_counter
    (no_ack count : Z) (argv : list string) (ins : list arrival) (i j : Z) :
  count < 0 ->
  consume_loop no_ack count argv i ins = consume_loop no_ack count argv j ins.
Proof.
  intros Hc. revert i j. induction ins as [|a rest IH]; intros i j.
  - cbn [consume_loop]. destruct (Z.ltb_spec count 0); [reflexivity | lia].
  - rewrite !consume_loop_enter by (left; exact Hc).
    rewrite (IH (int_wrap (i + 1)) (int_wrap (j + 1))). reflexivity.
Qed.

Lemma unlimited_loop_ignores_counter_witness :
  consume_loop 0 (-1) cat INT_MAX [delivery 9 0]
  = consume_loop 0 (-1) cat 0 [delivery 9 0].
Proof. apply unlimited_loop_ignores_counter. lia. Defined.

(** X16. An error from [amqp_simple_wait_frame] is fatal: it is reported
    as "waiting for header frame", the process exits with status 1, no
    pipeline is spawned and the frames still to come are never read. *)
Theorem wait_error_is_fatal
    (no_ack count : Z) (argv : list string) (i : Z) (a : arrival)
    (rest : list arrival) :
  count < 0 \/ i < count ->
  wait_res a < 0 ->
  consume_loop no_ack count argv i (a :: rest)
  = Run [ev_simple_wait_frame; ev_die "waiting for header frame"] (inr (Exit 1)).
Proof.
  intros Hloop Hw. rewrite consume_loop_enter by exact Hloop.
  unfold iteration, die_amqp_error.
  destruct (Z.ltb_spec (wait_res a) 0); [|lia]. reflexivity.
Qed.

Lemma wait_error_is_fatal_witness :
  consume_loop 0 (-1) cat 0
    [Arrival (-9) (deliver_frame 1) true [] true [0] 0; delivery 2 0]
  = Run [ev_simple_wait_frame; ev_die "waiting for header frame"] (inr (Exit 1)).
Proof.
  apply wait_error_is_fatal.
  - left; lia.
  - cbn; lia.
Defined.

(** X17. A refused basic.qos or basic.consume ends [do_consume] with
    status 1 before any frame is waited for; after a refused basic.qos the
    basic.consume request is not made either. *)
Theorem refused_request_is_fatal
    (b : broker) (queue : amqp_bytes_t) (no_ack count : Z) (argv : list string) :
  (1 <= count <= 65535 /\ qos_ok b = false) \/ consume_ok b = false ->
  let run := do_consume b queue no_ack count argv in
  result run = inr (Exit 1) /\
  count_ev is_wait (trace run) = 0%nat /\
  (1 <= count <= 65535 -> qos_ok b = false ->
   trace run = [ev_basic_qos 1 0 count 0; ev_die "basic.qos"]).
Proof.
  intros H run. subst run. rewrite do_consume_unfold. cbn zeta.
  destruct (Z.ltb_spec 0 count), (Z.leb_spec count 65535);
    cbn [andb negb app];
    rewrite ?to_uint16_small by lia;
    destruct (qos_ok b) eqn:Hq, (consume_ok b) eqn:Hcons; cbn [negb];
    try (destruct H as [[? ?]|?]; (discriminate || lia));
    repeat split; try reflexivity; intros; (discriminate || lia).
Qed.

Lemma refused_request_is_fatal_witness :
  trace (do_consume (Broker true None true false true true [delivery 1 0])
           [113] 0 10 cat)
  = [ev_basic_qos 1 0 10 0; ev_die "basic.qos"].
Proof.
  destruct (refused_request_is_fatal
              (Broker true None true false true true [delivery 1 0])
              [113] 0 10 cat) as (_ & _ & H).
  - left. split; [lia | reflexivity].
  - apply H; [lia | reflexivity].
Defined.

(** ** Further properties of main *)

Lemma count_ev_none_Forall (f : event -> bool) t :
  count_ev (fun e => negb (f e)) t = 0%nat -> Forall (fun e => f e = true) t.
Proof.
  intros H. apply count_ev_zero_Forall in H.
  eapply Forall_impl; [exact H|]. intros e He. cbv beta in He.
  destruct (f e); [reflexivity | discriminate].
Qed.

Lemma setup_queue_channel b queue exchange routing_key declare :
  count_ev (fun e => negb (on_channel_one e))
    (trace (setup_queue b queue exchange routing_key declare)) = 0%nat.
Proof.
  unfold setup_queue, die_rpc.
  destruct exchange, routing_key, queue, (declare =? 0),
    (declare_reply b) as [rq|]; cbn;
    try destruct (bind_ok b); cbn; try reflexivity;
    destruct (stringify_bytes rq ≫= c_str); cbn;
    try destruct (bind_ok b); reflexivity.
Qed.

Lemma do_consume_channel b queue no_ack count argv :
  count_ev (fun e => negb (on_channel_one e))
    (trace (do_consume b queue no_ack count argv)) = 0%nat.
Proof.
  rewrite do_consume_count_loop by reflexivity.
  destruct (_ || _); [reflexivity|].
  apply consume_loop_without; [reflexivity|].
  intros a. iteration_cases; reflexivity.
Qed.

(** X18. Every request of a run, from the declare to the last
    acknowledgment, is made on channel 1. *)
Theorem main_uses_channel_one (o : options) (b : broker) :
  Forall (fun e => on_channel_one e = true) (trace (main o b)).
Proof.
  apply count_ev_none_Forall.
  destruct (opt_args o) as [[|c cmd]|] eqn:Hargs;
    try (unfold main; rewrite Hargs; reflexivity).
  rewrite (main_with_command o b c cmd Hargs).
  assert (Hmake : count_ev (fun e => negb (on_channel_one e))
                    (trace (make_connection b)) = 0%nat).
  { unfold make_connection, die_rpc. destruct (connect_ok b); reflexivity. }
  assert (Hclose : count_ev (fun e => negb (on_channel_one e))
                     (trace (close_connection b)) = 0%nat).
  { unfold close_connection, die_rpc. destruct (close_ok b); reflexivity. }
  rewrite count_ev_bind, Hmake.
  destruct (result (make_connection b)); [|reflexivity].
  rewrite count_ev_bind, setup_queue_channel.
  destruct (result (setup_queue _ _ _ _ _)); [|reflexivity].
  rewrite count_ev_bind, do_consume_channel.
  destruct (result (do_consume _ _ _ _ _)); [|reflexivity].
  rewrite count_ev_bind, Hclose.
  destruct (result (close_connection b)); reflexivity.
Qed.



Lemma exits_one_bind {A B} (m : M A) (k : A -> M B) :
  exits_one m -> (forall a, exits_one (k a)) -> exits_one (m ≫= k).
Proof.
  unfold exits_one. intros Hm Hk s. rewrite bind_unfold.
  destruct (result m) as [a|h] eqn:E; cbn [result].
  - apply Hk.
  - intros [= ->]. apply Hm. reflexivity.
Qed.

Lemma setup_queue_exits_one b queue exchange routing_key declare :
  exits_one (setup_queue b queue exchange routing_key declare).
Proof.
  unfold exits_one, setup_queue, die_rpc. intros s.
  destruct exchange, routing_key, queue, (declare =? 0),
    (declare_reply b) as [rq|]; cbn;
    try destruct (bind_ok b); cbn; try congruence;
    destruct (stringify_bytes rq ≫= c_str); cbn;
    try destruct (bind_ok b); cbn; congruence.
Qed.

Lemma iteration_exits_one no_ack argv a : exits_one (iteration no_ack argv a).
Proof. unfold exits_one. intros s. iteration_cases; congruence. Qed.

Lemma consume_loop_exits_one no_ack count argv ins :
  forall i, exits_one (consume_loop no_ack count argv i ins).
Proof.
  induction ins as [|a rest IH]; intros i; cbn [consume_loop];
    destruct ((count <? 0) || (i <? count)); try (intros s; cbn; congruence).
  apply exits_one_bind; [apply iteration_exits_one | intros _; apply IH].
Qed.

Lemma consume_loop_unlimited_never_returns no_ack count argv ins :
  count < 0 ->
  forall i u, result (consume_loop no_ack count argv i ins) <> inl u.
Proof.
  intros Hc. induction ins as [|a rest IH]; intros i u.
  - cbn [consume_loop]. destruct (Z.ltb_spec count 0); [|lia]. discriminate.
  - rewrite consume_loop_enter by (left; exact Hc). rewrite bind_unfold.
    destruct (result (iteration no_ack argv a)); cbn [result];
      [apply IH | discriminate].
Qed.

Lemma do_consume_returned b queue no_ack count argv u :
  result (do_consume b queue no_ack count argv) = inl u ->
  0 <= count /\ consume_ok b = true.
Proof.
  rewrite do_consume_unfold. cbn zeta.
  destruct ((0 <? count) && (count <=? 65535) && negb (qos_ok b));
    [discriminate|].
  destruct (consume_ok b); [|discriminate]. cbn [result]. intros H.
  split; [|reflexivity].
  destruct (Z.lt_ge_cases count 0) as [Hneg|]; [|lia].
  exfalso. revert H. apply consume_loop_unlimited_never_returns, Hneg.
Qed.

Lemma do_consume_exits_one b queue no_ack count argv :
  exits_one (do_consume b queue no_ack count argv).
Proof.
  unfold exits_one. intros s. rewrite do_consume_unfold. cbn zeta.
  destruct ((0 <? count) && (count <=? 65535) && negb (qos_ok b));
    [cbn; congruence|].
  destruct (consume_ok b); [|cbn; congruence].
  cbn [result]. apply consume_loop_exits_one.
Qed.

(** X20. The process only ever exits with status 0 or 1.  It exits with
    status 0 only when a limit was set and reached ([count >= 0]), the
    connection, basic.consume and the closing were granted, and closing the
    connection was its last call; without a limit it never exits with
    status 0. *)
Theorem main_exit_status (o : options) (b : broker) (s : Z) :
  exit_status (main o b) = Some s ->
  (s = 0 \/ s = 1) /\
  (s = 0 ->
   0 <= opt_count o /\
   connect_ok b = true /\ consume_ok b = true /\ close_ok b = true /\
   exists t, trace (main o b) = ev_make_connection :: t ++ [ev_close_connection]).
Proof.
  destruct (opt_args o) as [[|c cmd]|] eqn:Hargs;
    try (unfold exit_status, main; rewrite Hargs; cbn; intros [= <-];
         split; [right; reflexivity | discriminate]).
  rewrite (main_with_command o b c cmd Hargs). unfold exit_status.
  unfold make_connection at 1 2. unfold die_rpc.
  destruct (connect_ok b);
    [|cbn; intros [= <-]; split; [right; reflexivity | discriminate]].
  rewrite bind_unfold. cbn [call result trace mret M_ret mbind M_bind app].
  rewrite bind_unfold.
  pose proof (setup_queue_exits_one b (opt_queue o) (opt_exchange o)
                (opt_routing_key o) (opt_declare o)) as Hsetup.
  destruct (result (setup_queue _ _ _ _ _)) as [qb|h] eqn:Es; cbn [result trace].
  2:{ destruct h; try discriminate. intros [= <-].
      rewrite (Hsetup status Es).
      split; [right; reflexivity | discriminate]. }
  rewrite bind_unfold.
  pose proof (do_consume_exits_one b qb (opt_no_ack o) (opt_count o) (c :: cmd))
    as Hcons.
  destruct (result (do_consume _ _ _ _ _)) as [u|h] eqn:Ed; cbn [result trace].
  2:{ destruct h; try discriminate. intros [= <-].
      rewrite (Hcons status Ed).
      split; [right; reflexivity | discriminate]. }
  destruct (do_consume_returned _ _ _ _ _ _ Ed) as [Hcount Hok].
  unfold close_connection, die_rpc.
  destruct (close_ok b); cbn [call result trace mret M_ret mbind M_bind app].
  - intros [= <-]. split; [left; reflexivity|]. intros _.
    repeat split; try assumption.
    eexists. rewrite !app_assoc. reflexivity.
  - intros [= <-]. split; [right; reflexivity | discriminate].
Qed.

Lemma main_exit_status_witness :
  exists t,
    trace (main (Options (Some "orders"%string) None None 0 0 1 (Some cat))
             (healthy [delivery 1 0]))
    = ev_make_connection :: t ++ [ev_close_connection].
Proof.
  destruct (main_exit_status
              (Options (Some "orders"%string) None None 0 0 1 (Some cat))
              (healthy [delivery 1 0]) 0 eq_refl) as [_ H].
  destruct (H eq_refl) as (_ & _ & _ & _ & Ht). exact Ht.
Defined.

(** ** The reach of the backslash defect *)

Lemma escaped_head_digit x tl e r :
  escaped (x :: tl) = e :: r ->
  octal_digit e = true ->
  x = e /\ r = escaped tl.
Proof.
  rewrite escaped_cons. unfold escape_byte.
  destruct (literal x); cbn [app]; intros [= <- <-] He.
  - split; reflexivity.
  - discriminate He.
Qed.

Lemma escaped_head_digits tl e1 e2 e3 r :
  escaped tl = e1 :: e2 :: e3 :: r ->
  octal_digit e1 && octal_digit e2 && octal_digit e3 = true ->
  exists tl', tl = e1 :: e2 :: e3 :: tl'.
Proof.
  intros He Hd. apply andb_prop in Hd as [Hd H3]. apply andb_prop in Hd as [H1 H2].
  destruct tl as [|x1 tl]; [discriminate He|].
  destruct (escaped_head_digit x1 tl e1 _ He H1) as [-> He'].
  symmetry in He'.
  destruct tl as [|x2 tl]; [discriminate He'|].
  destruct (escaped_head_digit x2 tl e2 _ He' H2) as [-> He''].
  symmetry in He''.
  destruct tl as [|x3 tl]; [discriminate He''|].
  destruct (escaped_head_digit x3 tl e3 _ He'' H3) as [-> _].
  eexists; reflexivity.
Qed.

Lemma octal_decode_backslash tl :
  escape_lookalike (92 :: tl) = false ->
  octal_decode (escaped (92 :: tl)) = 92 :: octal_decode (escaped tl).
Proof.
  intros Hl. rewrite escaped_cons. change (escape_byte 92) with [92].
  cbn [app]. destruct (escaped tl) as [|e1 [|e2 [|e3 r]]] eqn:E; try reflexivity.
  cbn [octal_decode]. rewrite Z.eqb_refl. cbn [andb].
  destruct (octal_digit e1 && octal_digit e2 && octal_digit e3) eqn:Hd;
    [|reflexivity].
  destruct (octal_value e1 e2 e3 <? 256) eqn:Hv; [|reflexivity].
  exfalso. destruct (escaped_head_digits tl e1 e2 e3 r E Hd) as [tl' ->].
  cbn [escape_lookalike] in Hl. rewrite Z.eqb_refl in Hl. cbn [andb] in Hl.
  rewrite Hd, Hv in Hl. discriminate Hl.
Qed.

Lemma escape_lookalike_tail c tl :
  escape_lookalike (c :: tl) = false -> escape_lookalike tl = false.
Proof.
  cbn [escape_lookalike]. intros H. apply orb_false_elim in H as [_ H]. exact H.
Qed.

Lemma octal_decode_escaped_unless_lookalike data :
  Forall uint8_t data ->
  escape_lookalike data = false ->
  octal_decode (escaped data) = data.
Proof.
  induction data as [|d data IH]; intros Hd Hl; [reflexivity|].
  inversion_clear Hd as [|? ? Hd1 Hd2].
  pose proof (escape_lookalike_tail d data Hl) as Hl'.
  destruct (Z.eq_dec d 92) as [->|Hne].
  - rewrite octal_decode_backslash by exact Hl. rewrite IH by assumption.
    reflexivity.
  - rewrite escaped_cons. unfold escape_byte. destruct (literal d); cbn [app].
    + rewrite octal_decode_plain by exact Hne. rewrite IH by assumption.
      reflexivity.
    + rewrite octal_decode_escape by exact Hd1. rewrite IH by assumption.
      reflexivity.
Qed.

(** X21. Outside the inputs of the kind C5 fails on, the rendering is
    reversible: a byte string in which no backslash is followed by three
    octal digits denoting a byte is recovered from what [stringify_bytes]
    prints by decoding the octal escapes, backslashes included. *)
Theorem stringify_bytes_round_trip_unless_lookalike (data : amqp_bytes_t) :
  renderable data ->
  escape_lookalike data = false ->
  octal_decode <$> stringify_string data = Some data.
Proof.
  intros [Hd Hsz] Hl. rewrite stringify_string_escaped by assumption.
  cbn. rewrite octal_decode_escaped_unless_lookalike by assumption. reflexivity.
Qed.

Lemma stringify_bytes_round_trip_unless_lookalike_witness :
  octal_decode <$> stringify_string [67; 58; 92; 116; 101; 109; 112; 92; 7; 92]
  = Some [67; 58; 92; 116; 101; 109; 112; 92; 7; 92].
Proof.
  apply stringify_bytes_round_trip_unless_lookalike.
  - split; [repeat constructor; unfold uint8_t; lia|].
    unfold bytes_len, SIZE_MAX; simpl; lia.
  - reflexivity.
Defined.
